(** * windsurf-update: a shallow embedding of the updater and its properties

  The development follows [main.go] of the repository.  Two revisions of
  that file are embedded: the current one (with [--force-update], [--yes],
  the [filepath.IsLocal] guard, the [Windsurf/] prefix stripping and the
  hand-written [compareVersions]) and the earlier one, kept in the module
  [Legacy], whose [extractArchive] still creates the parent directories
  of a regular file.

  Go strings are byte sequences, so they are modelled by [string] (a list
  of 8-bit [ascii]); Go's [int] and [int64] are modelled by [Z] with the
  64-bit clamping of [strconv] written out.  The file system, the HTTP
  server, standard input and the tar decoder form the environment of the
  program and are threaded explicitly. *)

From Stdlib Require Import ZArith Ascii String List Lia Bool.
From stdpp Require Import base option list strings pretty gmap fin_maps.

Local Open Scope string_scope.
Local Open Scope Z_scope.

(** ** Bytes and strings (package [strings]) *)

Module GoStrings.

Definition byte_val (c : ascii) : Z := Z.of_N (N_of_ascii c).

Definition lit (n : Z) : ascii := ascii_of_N (Z.to_N n).

(** [strings.HasPrefix]. *)
Fixpoint HasPrefix (s p : string) {struct p} : bool :=
  match p, s with
  | EmptyString, _ => true
  | String _ _, EmptyString => false
  | String a p', String b s' => if Ascii.eqb a b then HasPrefix s' p' else false
  end.

(** [s[n:]] for [n <= len(s)]. *)
Fixpoint drop_bytes (n : nat) (s : string) : string :=
  match n, s with
  | O, _ => s
  | S _, EmptyString => EmptyString
  | S n', String _ s' => drop_bytes n' s'
  end.

(** [strings.TrimPrefix]: [s] without the leading [p], or [s] itself. *)
Definition TrimPrefix (s p : string) : string :=
  if HasPrefix s p then drop_bytes (String.length p) s else s.

(** [strings.Split(s, sep)] for a one-byte separator.  The result is never
    empty: a string without the separator is returned as its only field. *)
Fixpoint Split (s : string) (sep : ascii) : list string :=
  match s with
  | EmptyString => [EmptyString]
  | String c s' =>
      if Ascii.eqb c sep then EmptyString :: Split s' sep
      else match Split s' sep with
           | h :: t => String c h :: t
           | [] => [String c EmptyString]
           end
  end.

(** [strings.Join]. *)
Fixpoint Join (l : list string) (sep : string) : string :=
  match l with
  | [] => EmptyString
  | [x] => x
  | x :: l' => x ++ sep ++ Join l' sep
  end.

(** [strings.Replace(s, old, new, 1)] for a non-empty [old]. *)
Fixpoint Replace1 (s old new : string) : string :=
  if HasPrefix s old then new ++ drop_bytes (String.length old) s
  else match s with
       | EmptyString => EmptyString
       | String c s' => String c (Replace1 s' old new)
       end.

(** The UTF-8 encodings of the runes for which [unicode.IsSpace] holds.
    [strings.TrimSpace] decodes one rune at a time; an encoding that is
    not well formed decodes to [RuneError], which is not a space, so
    removing these byte sequences from both ends is what it computes. *)
Definition space_runes : list string :=
  let b := lit in
  let s1 x := String (b x) EmptyString in
  let s2 x y := String (b x) (String (b y) EmptyString) in
  let s3 x y z := String (b x) (String (b y) (String (b z) EmptyString)) in
  [ s1 9; s1 10; s1 11; s1 12; s1 13; s1 32;
    s2 194 133; s2 194 160;
    s3 225 154 128;
    s3 226 128 128; s3 226 128 129; s3 226 128 130; s3 226 128 131;
    s3 226 128 132; s3 226 128 133; s3 226 128 134; s3 226 128 135;
    s3 226 128 136; s3 226 128 137; s3 226 128 138;
    s3 226 128 168; s3 226 128 169; s3 226 128 175;
    s3 226 129 159;
    s3 227 128 128 ].

Fixpoint strip_one (pats : list string) (s : string) : option string :=
  match pats with
  | [] => None
  | p :: pats' =>
      if HasPrefix s p then Some (drop_bytes (String.length p) s)
      else strip_one pats' s
  end.

Fixpoint trim_left (pats : list string) (fuel : nat) (s : string) : string :=
  match fuel with
  | O => s
  | S fuel' =>
      match strip_one pats s with
      | Some s' => trim_left pats fuel' s'
      | None => s
      end
  end.

Definition rev_string (s : string) : string :=
  string_of_list_ascii (rev (list_ascii_of_string s)).

(** [strings.TrimSpace]. Every stripped rune is at least one byte long, so
    [length s] rounds are enough on either side. *)
Definition TrimSpace (s : string) : string :=
  let l := trim_left space_runes (String.length s) s in
  let r := rev_string l in
  rev_string (trim_left (map rev_string space_runes) (String.length r) r).

End GoStrings.

(** ** Decimal parsing (package [strconv]) on a 64-bit platform *)

Module Strconv.
Import GoStrings.

Inductive NumError := ErrSyntax | ErrRange.

Definition maxUint64 : Z := 2 ^ 64 - 1.
Definition maxInt64 : Z := 2 ^ 63 - 1.
Definition minInt64 : Z := - 2 ^ 63.

(** The digit of a byte in [ParseUint]: decimal digits, then letters
    (case folded) from ten on; anything else is a syntax error. *)
Definition digit_of (c : ascii) : option Z :=
  let n := byte_val c in
  if (48 <=? n) && (n <=? 57) then Some (n - 48)
  else let l := Z.lor n 32 in
       if (97 <=? l) && (l <=? 122) then Some (l - 97 + 10)
       else None.

(** The loop of [ParseUint(s, 10, 64)]: [n] is the value read so far. *)
Fixpoint parseUintLoop (s : string) (n : Z) : Z * option NumError :=
  match s with
  | EmptyString => (n, None)
  | String c s' =>
      match digit_of c with
      | None => (0, Some ErrSyntax)
      | Some d =>
          if 10 <=? d then (0, Some ErrSyntax)
          else if maxUint64 / 10 + 1 <=? n then (maxUint64, Some ErrRange)
          else
            let n10 := n * 10 in
            let n1 := (n10 + d) mod 2 ^ 64 in
            if (n1 <? n10) || (maxUint64 <? n1) then (maxUint64, Some ErrRange)
            else parseUintLoop s' n1
      end
  end.

Definition ParseUint (s : string) : Z * option NumError :=
  match s with
  | EmptyString => (0, Some ErrSyntax)
  | _ => parseUintLoop s 0
  end.

(** [ParseInt(s, 10, 0)]. *)
Definition ParseInt (s : string) : Z * option NumError :=
  match s with
  | EmptyString => (0, Some ErrSyntax)
  | String c0 rest =>
      let neg := Ascii.eqb c0 "-" in
      let digits := if Ascii.eqb c0 "+" || neg then rest else s in
      match ParseUint digits with
      | (_, Some ErrSyntax) => (0, Some ErrSyntax)
      | (un, _) =>
          let cutoff := 2 ^ 63 in
          if negb neg && (cutoff <=? un) then (cutoff - 1, Some ErrRange)
          else if neg && (cutoff <? un) then (- cutoff, Some ErrRange)
          else (if neg then - un else un, None)
      end
  end.

(** The fast path of [Atoi]: at most 18 bytes, so no overflow. *)
Fixpoint atoiFast (s : string) (n : Z) : option Z :=
  match s with
  | EmptyString => Some n
  | String ch s' =>
      let d := (byte_val ch - 48) mod 256 in
      if 9 <? d then None else atoiFast s' (n * 10 + d)
  end.

(** [strconv.Atoi] with [intSize = 64]. *)
Definition Atoi (s : string) : Z * option NumError :=
  let sLen := String.length s in
  if ((0 <? sLen) && (sLen <? 19))%nat then
    match s with
    | EmptyString => (0, Some ErrSyntax)
    | String c0 rest =>
        let signed := Ascii.eqb c0 "-" || Ascii.eqb c0 "+" in
        let digits := if signed then rest else s in
        if signed && (String.length digits <? 1)%nat then (0, Some ErrSyntax)
        else match atoiFast digits 0 with
             | None => (0, Some ErrSyntax)
             | Some n => (if Ascii.eqb c0 "-" then - n else n, None)
             end
    end
  else ParseInt s.

End Strconv.

(** ** [compareVersions] *)

Module Version.
Import GoStrings Strconv.

(** The body of the [for i := 0; i < maxLen; i++] loop; [todo] counts the
    iterations that remain, [maxLen - i]. *)
Fixpoint compareLoop (todo : nat) (i : nat) (v1Parts v2Parts : list string) : Z :=
  match todo with
  | O => 0
  | S todo' =>
      let v1Val :=
        if (i <? length v1Parts)%nat then fst (Atoi (nth i v1Parts EmptyString)) else 0 in
      let v2Val :=
        if (i <? length v2Parts)%nat then fst (Atoi (nth i v2Parts EmptyString)) else 0 in
      if v1Val <? v2Val then -1
      else if v2Val <? v1Val then 1
      else compareLoop todo' (S i) v1Parts v2Parts
  end.

Definition compareVersions (v1 v2 : string) : Z :=
  let v1Parts := Split v1 "." in
  let v2Parts := Split v2 "." in
  let maxLen := Nat.max (length v1Parts) (length v2Parts) in
  compareLoop maxLen 0 v1Parts v2Parts.

End Version.

(** ** Lexical path functions (package [path/filepath], Unix) *)

Module Filepath.
Import GoStrings.

Definition IsAbs (path : string) : bool := HasPrefix path "/".

(** The element loop of [Clean].  [out] is the output buffer, kept as the
    stack of the elements written so far (last one first).  Empty and [.]
    elements are dropped; [..] removes the last real element when there is
    one, is dropped at the root of a rooted path, and is appended
    otherwise (the [dotdot] mark of the source: appended [..] elements
    can never be removed again, and they are always at the bottom). *)
Fixpoint cleanLoop (rooted : bool) (elems out : list string) : list string :=
  match elems with
  | [] => out
  | e :: rest =>
      if String.eqb e "" || String.eqb e "." then cleanLoop rooted rest out
      else if String.eqb e ".." then
        match out with
        | top :: below =>
            if String.eqb top ".." then cleanLoop rooted rest (e :: out)
            else cleanLoop rooted rest below
        | [] => cleanLoop rooted rest (if rooted then [] else [e])
        end
      else cleanLoop rooted rest (e :: out)
  end.

(** The elements of the cleaned path, first one first. *)
Definition clean_elems (path : string) : list string :=
  rev (cleanLoop (IsAbs path) (Split path "/") []).

(** [filepath.Clean]. *)
Definition Clean (path : string) : string :=
  if String.eqb path "" then "."
  else
    let out := clean_elems path in
    if IsAbs path then "/" ++ GoStrings.Join out "/"
    else match out with
         | [] => "."
         | _ => GoStrings.Join out "/"
         end.

(** [filepath.IsLocal] ([unixIsLocal]). *)
Definition IsLocal (path : string) : bool :=
  if IsAbs path || String.eqb path "" then false
  else
    let hasDots :=
      existsb (fun part => String.eqb part "." || String.eqb part "..")
              (Split path "/") in
    let path := if hasDots then Clean path else path in
    if String.eqb path ".." || HasPrefix path "../" then false
    else true.

(** [filepath.Join] of two elements: the elements from the first non-empty
    one on are joined with [/] and cleaned. *)
Definition Join (a b : string) : string :=
  if negb (String.eqb a "") then Clean (a ++ "/" ++ b)
  else if negb (String.eqb b "") then Clean b
  else "".

(** [path[:i+1]] for the last separator at [i]; empty without one. *)
Fixpoint upto_last_slash (path : string) : string :=
  match path with
  | EmptyString => EmptyString
  | String c rest =>
      if existsb (Ascii.eqb "/") (list_ascii_of_string path)
      then String c (upto_last_slash rest)
      else EmptyString
  end.

(** [filepath.Dir]. *)
Definition Dir (path : string) : string := Clean (upto_last_slash path).

End Filepath.

(** ** The file system

  A file system is a finite map from absolute, cleaned paths (as lists of
  elements; the root is the empty list and always a directory) to nodes.
  Paths are resolved lexically against the working directory: there are
  no symbolic links (the installer never creates one), no hard links and
  no permission checks.  The only errors are the structural ones. *)

Module Fs.
Import GoStrings.

Inductive Node :=
| Dir (perm : Z)
| File (perm : Z) (data : string).

Abbreviation FS := (gmap (list string) Node).

Inductive Errno := ENOENT | ENOTDIR | EISDIR | EEXIST | ENOTEMPTY | EINVAL.

(** Result of a call that returns [error]. *)
Definition result (A : Type) : Type := Errno + A.

Definition IsNotExist {A} (r : result A) : bool :=
  match r with inl ENOENT => true | _ => false end.

Definition failed {A} (r : result A) : bool :=
  match r with inl _ => true | inr _ => false end.

Definition node_at (fs : FS) (p : list string) : option Node :=
  match p with
  | [] => Some (Dir 493)
  | _ => fs !! p
  end.

(** Path lookup as the kernel does it: every element before the last must
    be a directory. [seen] is the part already walked. *)
Fixpoint walk (fs : FS) (seen rest : list string) : result Node :=
  match node_at fs seen with
  | None => inl ENOENT
  | Some n =>
      match rest with
      | [] => inr n
      | c :: rest' =>
          match n with
          | Dir _ => walk fs (seen ++ [c])%list rest'
          | File _ _ => inl ENOTDIR
          end
      end
  end.

Definition lookup_path (fs : FS) (p : list string) : result Node := walk fs [] p.

Definition parent (p : list string) : list string := removelast p.

Definition under (p q : list string) : Prop := p `prefix_of` q.

(** The nodes at or below [p] are removed. *)
Definition remove_tree (p : list string) (fs : FS) : FS :=
  filter (fun kv => ¬ under p kv.1) fs.

Definition has_children (p : list string) (fs : FS) : bool :=
  negb (bool_decide (dom (filter (fun kv : list string * Node => under p kv.1 ∧ kv.1 ≠ p) fs) = ∅)).

Section WithEnv.
(** The working directory (elements of an absolute path), the process
    umask and the size [stat] reports for a directory. *)
Variable cwd : list string.
Variable umask : Z.
Variable dir_size : Z.

(** The node a path names: relative paths start at [cwd]. *)
Definition resolve (path : string) : list string :=
  if Filepath.IsAbs path then Filepath.clean_elems path
  else Filepath.clean_elems ("/" ++ GoStrings.Join cwd "/" ++ "/" ++ path).

Definition apply_umask (perm : Z) : Z := Z.land perm (Z.lnot umask).

(** [syscallMode]: the nine permission bits, and the set-uid, set-gid
    and sticky bits where [os.FileMode] keeps them (bits 23, 22, 20). *)
Definition syscallMode (mode : Z) : Z :=
  let m := mode mod 2 ^ 32 in
  Z.lor (Z.land m 511)
    (Z.lor (if Z.testbit m 23 then 2048 else 0)
       (Z.lor (if Z.testbit m 22 then 1024 else 0)
              (if Z.testbit m 20 then 512 else 0))).

Definition node_size (n : Node) : Z :=
  match n with
  | Dir _ => dir_size
  | File _ data => Z.of_nat (String.length data)
  end.

(** [os.Stat]. *)
Definition Stat (fs : FS) (path : string) : result Node :=
  if String.eqb path "" then inl ENOENT else lookup_path fs (resolve path).

(** [os.ReadFile]. *)
Definition ReadFile (fs : FS) (path : string) : result string :=
  match Stat fs path with
  | inl e => inl e
  | inr (Dir _) => inl EISDIR
  | inr (File _ data) => inr data
  end.

(** [os.MkdirAll] along the elements of the path: an existing directory
    is kept, a missing one is created, a regular file in the way is
    [ENOTDIR]. *)
Fixpoint mkdirAll (perm : Z) (seen rest : list string) (fs : FS) : result FS :=
  match rest with
  | [] => inr fs
  | c :: rest' =>
      let p := (seen ++ [c])%list in
      match node_at fs p with
      | Some (Dir _) => mkdirAll perm p rest' fs
      | Some (File _ _) => inl ENOTDIR
      | None => mkdirAll perm p rest' (<[p := Dir (apply_umask (syscallMode perm))]> fs)
      end
  end.

Definition MkdirAll (path : string) (perm : Z) (fs : FS) : result FS :=
  if String.eqb path "" then inl ENOENT
  else mkdirAll perm [] (resolve path) fs.

(** Opening for writing. [create]: [O_CREATE]; [trunc]: [O_TRUNC]. The
  result is the file system after the open. *)
Definition open_write (create trunc : bool) (path : string) (perm : Z) (fs : FS)
: result FS :=
if String.eqb path "" then inl ENOENT
else
  let p := resolve path in
  match lookup_path fs p with
  | inr (Dir _) => inl EISDIR
  | inr (File m data) =>
      if trunc then inr (<[p := File m ""]> fs) else inr fs
  | inl ENOENT =>
      match p with
      | [] => inl ENOENT
      | _ =>
          match lookup_path fs (parent p) with
          | inr (Dir _) =>
              if create
              then inr (<[p := File (apply_umask (syscallMode perm)) ""]> fs)
              else inl ENOENT
          | inr (File _ _) => inl ENOTDIR
          | inl e => inl e
          end
      end
  | inl e => inl e
  end.

(** Writing [bytes] through a descriptor positioned at offset 0: the
    bytes replace the start of the file, what lies beyond them stays. *)
Definition write_at_start (path bytes : string) (fs : FS) : FS :=
  let p := resolve path in
  match fs !! p with
  | Some (File m old) => <[p := File m (bytes ++ drop_bytes (String.length bytes) old)]> fs
  | _ => fs
  end.

(** Writing through an [O_APPEND] descriptor. *)
Definition write_append (path bytes : string) (fs : FS) : FS :=
  let p := resolve path in
  match fs !! p with
  | Some (File m old) => <[p := File m (old ++ bytes)]> fs
  | _ => fs
  end.

(** [os.Remove]: a file or an empty directory. *)
Definition Remove (path : string) (fs : FS) : result FS :=
  if String.eqb path "" then inl ENOENT
  else
    let p := resolve path in
    match lookup_path fs p with
    | inl e => inl e
    | inr (File _ _) => inr (delete p fs)
    | inr (Dir _) =>
        match p with
        | [] => inl EINVAL
        | _ => if has_children p fs then inl ENOTEMPTY else inr (delete p fs)
        end
    end.

Definition endsWithDot (path : string) : bool :=
  String.eqb path "." || HasPrefix (rev_string path) "./".

(** [os.RemoveAll]: nothing to do for the empty path or a missing one,
    [EINVAL] for a path ending in a dot element. *)
Definition RemoveAll (path : string) (fs : FS) : result FS :=
  if String.eqb path "" then inr fs
  else if endsWithDot path then inl EINVAL
  else
    let p := resolve path in
    match lookup_path fs p with
    | inl ENOENT => inr fs
    | inl e => inl e
    | inr _ => inr (remove_tree p fs)
    end.

(** [os.Rename] of a regular file: an existing directory at the new name
    is [EEXIST], an existing file is replaced. The updater only renames
    the partial file it has just written. *)
Definition Rename (oldpath newpath : string) (fs : FS) : result FS :=
  let o := resolve oldpath in
  let n := resolve newpath in
  match lookup_path fs n with
  | inr (Dir _) =>
      match lookup_path fs o with
      | inl e => inl e
      | inr _ => inl EEXIST
      end
  | new_state =>
      match lookup_path fs o with
      | inl e => inl e
      | inr (Dir _) => inl EINVAL
      | inr (File m data) =>
          match new_state, n with
          | inl ENOTDIR, _ => inl ENOTDIR
          | _, [] => inl EEXIST
          | _, _ =>
              match lookup_path fs (parent n) with
              | inr (Dir _) => inr (<[n := File m data]> (delete o fs))
              | inr (File _ _) => inl ENOTDIR
              | inl e => inl e
              end
          end
      end
  end.

End WithEnv.

End Fs.

(** ** SHA-256 (package [crypto/sha256]) and [encoding/hex] *)

Module Sha256.
Import GoStrings.

Definition w32 (x : Z) : Z := x mod 2 ^ 32.
Definition rotr (n x : Z) : Z := Z.lor (Z.shiftr x n) (w32 (Z.shiftl x (32 - n))).
Definition not32 (x : Z) : Z := Z.lxor x 0xffffffff.

Definition Ch (x y z : Z) : Z := Z.lxor (Z.land x y) (Z.land (not32 x) z).
Definition Maj (x y z : Z) : Z :=
  Z.lxor (Z.land x y) (Z.lxor (Z.land x z) (Z.land y z)).
Definition Sigma0 (x : Z) : Z := Z.lxor (rotr 2 x) (Z.lxor (rotr 13 x) (rotr 22 x)).
Definition Sigma1 (x : Z) : Z := Z.lxor (rotr 6 x) (Z.lxor (rotr 11 x) (rotr 25 x)).
Definition sigma0 (x : Z) : Z := Z.lxor (rotr 7 x) (Z.lxor (rotr 18 x) (Z.shiftr x 3)).
Definition sigma1 (x : Z) : Z := Z.lxor (rotr 17 x) (Z.lxor (rotr 19 x) (Z.shiftr x 10)).

(** The constants are derived as the standard defines them: the first 32
    bits of the fractional parts of the cube roots (round constants) and
    of the square roots (initial state) of the first primes. *)
Definition is_prime (n : Z) : bool :=
  forallb (fun d => negb (n mod Z.of_nat d =? 0)) (seq 2 (Z.to_nat n - 2)).

Definition primes : list Z :=
  Eval vm_compute in filter (fun n => is_prime n) (map Z.of_nat (seq 2 310)).

(** The integer cube root, bit by bit from bit [bits - 1] down. *)
Fixpoint cube_root (bits : nat) (n r : Z) : Z :=
  match bits with
  | O => r
  | S b =>
      let r' := r + 2 ^ Z.of_nat b in
      cube_root b n (if r' * r' * r' <=? n then r' else r)
  end.

Definition K : list Z :=
  Eval vm_compute in map (fun p => w32 (cube_root 36 (p * 2 ^ 96) 0)) primes.

Definition init : list Z :=
  Eval vm_compute in map (fun p => w32 (Z.sqrt (p * 2 ^ 64))) (firstn 8 primes).

(** Big-endian words of a block of bytes. *)
Fixpoint words (bs : list Z) : list Z :=
  match bs with
  | a :: b :: c :: d :: rest =>
      (((a * 256 + b) * 256 + c) * 256 + d) :: words rest
  | _ => []
  end.

Definition at_ (l : list Z) (i : nat) : Z := nth i l 0.

(** The message schedule: [w] holds the words so far, [n] more to add. *)
Fixpoint schedule (n : nat) (w : list Z) : list Z :=
  match n with
  | O => w
  | S n' =>
      let i := length w in
      let x := w32 (sigma1 (at_ w (i - 2)) + at_ w (i - 7)
                    + sigma0 (at_ w (i - 15)) + at_ w (i - 16)) in
      schedule n' (w ++ [x])%list
  end.

Definition round (st : list Z) (kw : Z * Z) : list Z :=
  match st with
  | [a; b; c; d; e; f; g; h] =>
      let t1 := h + Sigma1 e + Ch e f g + fst kw + snd kw in
      let t2 := Sigma0 a + Maj a b c in
      [w32 (t1 + t2); a; b; c; w32 (d + t1); e; f; g]
  | _ => st
  end.

Definition compress (st : list Z) (block : list Z) : list Z :=
  let w := schedule 48 (words block) in
  let st' := fold_left round (combine K w) st in
  map (fun p => w32 (fst p + snd p)) (combine st st').

Definition be64 (n : Z) : list Z :=
  map (fun i => Z.shiftr n (8 * i) mod 256) [7; 6; 5; 4; 3; 2; 1; 0].

Definition pad (msg : list Z) : list Z :=
  let len := Z.of_nat (length msg) in
  let zeros := Z.to_nat ((55 - len) mod 64) in
  (msg ++ [128] ++ repeat 0 zeros ++ be64 (8 * len))%list.

Fixpoint blocks (n : nat) (bs : list Z) : list (list Z) :=
  match n with
  | O => []
  | S n' => firstn 64 bs :: blocks n' (skipn 64 bs)
  end.

Definition digest_words (msg : list Z) : list Z :=
  let p := pad msg in
  fold_left compress (blocks (length p / 64) p) init.

Definition hex_digit (d : Z) : ascii :=
  lit (if d <? 10 then 48 + d else 87 + d).

Fixpoint hex_of (digits : nat) (x : Z) (acc : string) : string :=
  match digits with
  | O => acc
  | S n => hex_of n (x / 16) (String (hex_digit (x mod 16)) acc)
  end.

Definition bytes_of (s : string) : list Z := map byte_val (list_ascii_of_string s).

(** [hex.EncodeToString(sha256.Sum256(data))]. *)
Definition Sum256Hex (data : string) : string :=
  fold_right (fun w acc => hex_of 8 w acc) EmptyString (digest_words (bytes_of data)).

End Sha256.

(** ** The environment of a run *)

Module Http.

Definition StatusOK : Z := 200.
Definition StatusPartialContent : Z := 206.

(** A [GET] request: its URL and the value of its [Range] header. *)
Record Request := mkRequest { URL : string; Range : option string }.

(** A response: the status code, the bytes the body delivers, and whether
    the body ends cleanly ([false]: the connection breaks after them). *)
Record Response := mkResponse { StatusCode : Z; Body : string; BodyComplete : bool }.

(** The server (and the network): what it answers to a request, given the
    requests it has seen before; [None] is a transport error. *)
Definition Server := list Request -> Request -> option Response.

End Http.

Module Tar.

Definition TypeReg : ascii := "0".
Definition TypeDir : ascii := "5".
Definition TypeSymlink : ascii := "2".

(** [tar.Header], the fields the installer reads. *)
Record Header := mkHeader { Name : string; Typeflag : ascii; Mode : Z }.

(** An entry as [tr.Next] delivers it: the header and the bytes reading
    the entry yields; [Intact = false]: the stream breaks after them. *)
Record Entry := mkEntry { Hdr : Header; Data : string; Intact : bool }.

(** How the stream ends: [io.EOF], or an error from [tr.Next]. *)
Inductive StreamEnd := EOF | Corrupt.

Record Archive := mkArchive { Entries : list Entry; End_ : StreamEnd }.

End Tar.

(** [ReleaseInfo], as decoded from the update API. *)
Record ReleaseInfo := mkReleaseInfo {
URL : string;
Name : string;
Version : string;
ProductVersion : string;
Hash : string;
Timestamp : Z;
SHA256Hash : string;
SupportsFastUpdate : bool;
WindsurfVersion : string
}.

(** What the program cannot see into: the process environment, the server,
  and the decoders of the standard library. *)
Record Env := mkEnv {
cwd : list string;
umask : Z;
dir_size : Z;
server : Http.Server;
(** [http.NewRequest] accepts the URL. *)
url_ok : string -> bool;
(** [json.NewDecoder(body).Decode(&release)]. *)
decodeRelease : string -> option ReleaseInfo;
(** [gzip.NewReader] followed by [tar.NewReader] on the bytes of a file;
    [None]: not a gzip stream. *)
untar : string -> option Tar.Archive
}.

(** Everything the program prints, one constructor per [Printf]. *)
Inductive Msg :=
| MsgHomeDirError
| MsgPlatformUnsupported
| MsgSelectedPlatform (platform : string)
| MsgErrorCheckingUpdates
| MsgFoundVersion (v : string)
| MsgUnableToCheckInstalled
| MsgAlreadyAt (existing : string)
| MsgNoDownloadDir (dir : string)
| MsgDownloading (v dir : string)
| MsgResuming (offset : Z)
| MsgErrorDownloading
| MsgDownloadSkipped
| MsgCheckingIntegrity (archivePath : string)
| MsgErrorSHA256
| MsgSHA256Mismatch (expected got : string)
| MsgOK
| MsgRemoving (dir : string)
| MsgRemovingAreYouSure (dir : string)
| MsgAborted
| MsgErrorRemoving (dir : string)
| MsgExtracting (archivePath destPath : string)
| MsgErrorExtracting
| MsgMarkerWarning (marker : string)
| MsgSuccess (v : string)
| MsgRestart
| MsgManualInstall (archivePath : string).

(** The state a run changes: the file system, the requests sent so far (in
  order) and the output so far (in order). *)
Record World := mkWorld {
fs : Fs.FS;
sent : list Http.Request;
out : list Msg
}.

Definition set_fs (f : Fs.FS) (w : World) : World := mkWorld f (sent w) (out w).
Definition print (m : Msg) (w : World) : World := mkWorld (fs w) (sent w) (out w ++ [m]).

(** The errors the functions of the program return. *)
Inductive Error :=
| OsError (e : Fs.Errno)
| NonLocalPath (name : string)
| TarError
| GzipError
| NewRequestError
| TransportError
| StatusError (code : Z)
| TempFileError (e : Fs.Errno)
| CopyError
| RenameError (e : Fs.Errno)
| ApiStatusError (code : Z)
| JsonError
| HashOpenError (e : Fs.Errno)
| HashReadError (e : Fs.Errno).

(** ** The program *)

Definition UpdateApiUrl (platform : string) : string :=
"https://windsurf-stable.codeium.com/api/update/" ++ platform ++ "/stable/latest".
Definition DefaultDownloadPath : string := "~/Downloads".
Definition DefaultInstallPath : string := "~/apps/windsurf".
Definition VersionMarker : string := ".windsurf-release".

Definition platformMap : gmap string string :=
<["darwin-arm64" := "darwin-arm64-dmg"]>
  (<["darwin-amd64" := "darwin-x64-dmg"]>
     (<["linux-amd64" := "linux-x64"]>
        (<["windows-amd64" := "win32-x64"]> ∅))).

Section Program.
Variable E : Env.

Local Abbreviation Stat := (Fs.Stat (cwd E)).
Local Abbreviation ReadFile := (Fs.ReadFile (cwd E)).
Local Abbreviation MkdirAll := (Fs.MkdirAll (cwd E) (umask E)).
Local Abbreviation open_write := (Fs.open_write (cwd E) (umask E)).
Local Abbreviation write_at_start := (Fs.write_at_start (cwd E)).
Local Abbreviation write_append := (Fs.write_append (cwd E)).
Local Abbreviation Remove := (Fs.Remove (cwd E)).
Local Abbreviation RemoveAll := (Fs.RemoveAll (cwd E)).
Local Abbreviation Rename := (Fs.Rename (cwd E)).

(** [http.DefaultClient.Do]: the request goes out and is answered. *)
Definition Do (req : Http.Request) (w : World) : World * option Http.Response :=
  (mkWorld (fs w) (sent w ++ [req]) (out w), server E (sent w) req).

(** *** [getLatestRelease] *)
Definition getLatestRelease (platform : string) (w : World)
  : World * (Error + ReleaseInfo) :=
  match Do (Http.mkRequest (UpdateApiUrl platform) None) w with
  | (w, None) => (w, inl TransportError)
  | (w, Some resp) =>
      if negb (Http.StatusCode resp =? Http.StatusOK)
      then (w, inl (ApiStatusError (Http.StatusCode resp)))
      else match decodeRelease E (Http.Body resp) with
           | None => (w, inl JsonError)
           | Some release => (w, inr release)
           end
  end.

(** *** [downloadFile] *)

(** The part after the status checks: open the partial file, copy the
    body into it, rename it. *)
Definition storeBody (filepath partialPath : string) (startOffset : Z)
    (resp : Http.Response) (w : World) : World * option Error :=
  let opened :=
    if 0 <? startOffset
    then open_write false false partialPath 420 (fs w)
    else open_write true true partialPath 438 (fs w) in
  match opened with
  | inl e => (w, Some (TempFileError e))
  | inr f =>
      let f := write_append partialPath (Http.Body resp) f in
      if negb (Http.BodyComplete resp) then (set_fs f w, Some CopyError)
      else match Rename partialPath filepath f with
           | inl e => (set_fs f w, Some (RenameError e))
           | inr f' => (set_fs f' w, None)
           end
  end.

Definition downloadFile (url filepath : string) (w : World) : World * option Error :=
  let partialPath := filepath ++ ".partial" in
  let '(startOffset, w) :=
    match Stat (fs w) partialPath with
    | inr stat => (Fs.node_size (dir_size E) stat,
                   print (MsgResuming (Fs.node_size (dir_size E) stat)) w)
    | inl _ => (0, w)
    end in
  if negb (url_ok E url) then (w, Some NewRequestError)
  else
    let req :=
      Http.mkRequest url
        (if 0 <? startOffset then Some ("bytes=" ++ pretty startOffset ++ "-") else None) in
    match Do req w with
    | (w, None) => (w, Some TransportError)
    | (w, Some resp) =>
        let retried :=
          if (0 <? startOffset) && negb (Http.StatusCode resp =? Http.StatusPartialContent)
          then
            (* the server does not support range requests: start over *)
            let req := Http.mkRequest url None in
            let w := match Remove partialPath (fs w) with
                     | inr f => set_fs f w
                     | inl _ => w
                     end in
            match Do req w with
            | (w, None) => (w, inl TransportError)
            | (w, Some resp) => (w, inr (0, resp))
            end
          else (w, inr (startOffset, resp)) in
        match retried with
        | (w, inl e) => (w, Some e)
        | (w, inr (startOffset, resp)) =>
            if negb (Http.StatusCode resp =? Http.StatusOK)
               && negb (Http.StatusCode resp =? Http.StatusPartialContent)
            then (w, Some (StatusError (Http.StatusCode resp)))
            else storeBody filepath partialPath startOffset resp w
        end
    end.

(** *** [calculateSHA256] *)

Definition bufSize : Z := 1024 * 1024.

Fixpoint take_bytes (n : nat) (s : string) : string :=
  match n, s with
  | S n', String c s' => String c (take_bytes n' s')
  | _, _ => EmptyString
  end.

(** The read loop: [rest] is what the file still holds, [hashed] what has
    been written to the hash. One more [Read] after the last byte returns
    [io.EOF]. *)
Fixpoint hashLoop (reads : nat) (rest hashed : string) : string :=
  match reads with
  | O => hashed
  | S reads' =>
      let n := Z.to_nat (Z.min bufSize (Z.of_nat (String.length rest))) in
      if (0 <? n)%nat
      then hashLoop reads' (GoStrings.drop_bytes n rest) (hashed ++ take_bytes n rest)
      else hashed
  end.

Definition calculateSHA256 (path : string) (w : World) : Error + string :=
  match Stat (fs w) path with
  | inl e => inl (HashOpenError e)
  | inr (Fs.Dir _) => inl (HashReadError Fs.EISDIR)
  | inr (Fs.File _ data) =>
      inr (Sha256.Sum256Hex (hashLoop (S (String.length data)) data EmptyString))
  end.

(** *** [extractArchive] *)

(** The [switch header.Typeflag] statement: what is made at [target] for
    an entry. The file system returned is the one left behind, also when
    there is an error. Entries that are neither directories nor regular
    files are passed over. *)
Definition materialize (target : string) (e : Tar.Entry) (f : Fs.FS)
  : Fs.FS * option Error :=
  if Ascii.eqb (Tar.Typeflag (Tar.Hdr e)) Tar.TypeDir then
    match MkdirAll target 493 f with
    | inl err => (f, Some (OsError err))
    | inr f' => (f', None)
    end
  else if Ascii.eqb (Tar.Typeflag (Tar.Hdr e)) Tar.TypeReg then
    match open_write true false target (Tar.Mode (Tar.Hdr e)) f with
    | inl err => (f, Some (OsError err))
    | inr f' =>
        let f' := write_at_start target (Tar.Data e) f' in
        if Tar.Intact e then (f', None) else (f', Some TarError)
    end
  else (f, None).

(** One round of the loop for a header the reader delivered. [Some err]:
    the function returns with that error; [None]: on to the next entry. *)
Definition extractEntry (destPath : string) (e : Tar.Entry) (f : Fs.FS)
  : Fs.FS * option Error :=
  let name := Tar.Name (Tar.Hdr e) in
  (* Avoid absolute paths and directory traversal outside the destination directory *)
  if negb (Filepath.IsLocal name) then (f, Some (NonLocalPath name))
  else
    (* Remove first directory component to allow for a fully custom install path *)
    let name := GoStrings.TrimPrefix name "Windsurf/" in
    if String.eqb name "" then (f, None)
    else materialize (Filepath.Join destPath name) e f.

Fixpoint extractLoop (destPath : string) (entries : list Tar.Entry)
    (fin : Tar.StreamEnd) (f : Fs.FS) : Fs.FS * option Error :=
  match entries with
  | [] => match fin with
          | Tar.EOF => (f, None)
          | Tar.Corrupt => (f, Some TarError)
          end
  | e :: rest =>
      match extractEntry destPath e f with
      | (f', Some err) => (f', Some err)
      | (f', None) => extractLoop destPath rest fin f'
      end
  end.

(** [gzip.NewReader] and [tar.NewReader] on an open file: reading a
    directory fails. *)
Definition gunzip (file : Fs.Node) : option Tar.Archive :=
  match file with
  | Fs.Dir _ => None
  | Fs.File _ bytes => untar E bytes
  end.

Definition extractArchive (archivePath destPath : string) (w : World)
  : World * option Error :=
  let w := print (MsgExtracting archivePath destPath) w in
  match Stat (fs w) archivePath with
  | inl e => (w, Some (OsError e))
  | inr file =>
      match gunzip file with
      | None => (w, Some GzipError)
      | Some ar =>
          let '(f, r) := extractLoop destPath (Tar.Entries ar) (Tar.End_ ar) (fs w) in
          (set_fs f w, r)
      end
  end.

End Program.

(** *** [main] *)

(** What a run is started with: the process environment, the parsed flags
    ([None] and the empty string stand for a flag that was not given), and
    the word [fmt.Scanln] stores when the user is asked. *)
Record Invocation := mkInvocation {
  homeDir : option string;
  GOOS : string;
  GOARCH : string;
  download_path : option string;
  install_path : option string;
  platform : string;
  force_update : bool;
  yes : bool;
  response : string
}.

(** A computation that may change the world and may call [os.Exit]. *)
Definition Prog (A : Type) : Type := World -> World * (Z + A).

Definition ret {A} (a : A) : Prog A := fun w => (w, inr a).

Definition bind {A B} (m : Prog A) (k : A -> Prog B) : Prog B :=
  fun w =>
    match m w with
    | (w', inl code) => (w', inl code)
    | (w', inr a) => k a w'
    end.

Definition Exit {A} (code : Z) : Prog A := fun w => (w, inl code).

Definition Printf (m : Msg) : Prog unit := fun w => (print m w, inr tt).

Notation "x <- m ;; k" := (bind m (fun x => k))
  (at level 200, m at level 99, k at level 200, right associativity).
Notation "m ;;; k" := (bind m (fun _ => k))
  (at level 200, k at level 200, right associativity).

Section Main.
Variable E : Env.

(** Compare with currently installed version, if available. *)
Definition checkLocalVersion (installPath versionMarker latest : string)
    (forceUpdate : bool) : Prog unit :=
  fun w =>
    if negb (Fs.IsNotExist (Fs.Stat (cwd E) (fs w) installPath)) && negb forceUpdate then
      match Fs.ReadFile (cwd E) (fs w) versionMarker with
      | inl _ => Printf MsgUnableToCheckInstalled w
      | inr vsn =>
          let existing := GoStrings.TrimSpace vsn in
          if 0 <=? Version.compareVersions existing latest
          then (Printf (MsgAlreadyAt existing) ;;; Exit 0) w
          else ret tt w
      end
    else ret tt w.

Definition archivePathOf (downloadPath : string) (release : ReleaseInfo) : string :=
  Filepath.Join downloadPath ("windsurf-" ++ WindsurfVersion release ++ ".tar.gz").

(** Download the archive. *)
Definition downloadStage (downloadPath : string) (release : ReleaseInfo) : Prog string :=
  fun w =>
    let archivePath := archivePathOf downloadPath release in
    if Fs.IsNotExist (Fs.Stat (cwd E) (fs w) archivePath) then
      let w := print (MsgDownloading (WindsurfVersion release) downloadPath) w in
      match downloadFile E (URL release) archivePath w with
      | (w, Some _) => (Printf MsgErrorDownloading ;;; Exit 1) w
      | (w, None) => ret archivePath w
      end
    else (Printf MsgDownloadSkipped ;;; ret archivePath) w.

(** Check archive integrity. *)
Definition verifyStage (archivePath : string) (release : ReleaseInfo) : Prog unit :=
  fun w =>
    let w := print (MsgCheckingIntegrity archivePath) w in
    match calculateSHA256 E archivePath w with
    | inl _ => (Printf MsgErrorSHA256 ;;; Exit 1) w
    | inr archiveHash =>
        if negb (String.eqb archiveHash (SHA256Hash release))
        then (Printf (MsgSHA256Mismatch (SHA256Hash release) archiveHash) ;;; Exit 1) w
        else Printf MsgOK w
    end.

(** [len(response) < 1 || (response[0] != 'Y' && response[0] != 'y')] *)
Definition declined (response : string) : bool :=
  match response with
  | EmptyString => true
  | String c _ => negb (Ascii.eqb c "Y") && negb (Ascii.eqb c "y")
  end.

(** Clean up existing installation & (re)create directory. *)
Definition replaceStage (installPath : string) (yes : bool) (response : string)
  : Prog unit :=
  fun w =>
    let removed : Prog unit := fun w =>
      if negb (Fs.IsNotExist (Fs.Stat (cwd E) (fs w) installPath)) then
        (( if yes then Printf (MsgRemoving installPath)
           else Printf (MsgRemovingAreYouSure installPath) ;;;
                if declined response then Printf MsgAborted ;;; Exit 1 else ret tt ) ;;;
         fun w =>
           match Fs.RemoveAll (cwd E) installPath (fs w) with
           | inl _ => (Printf (MsgErrorRemoving installPath) ;;; Exit 1) w
           | inr f => ret tt (set_fs f w)
           end) w
      else ret tt w in
    (removed ;;;
     fun w =>
       match Fs.MkdirAll (cwd E) (umask E) installPath 493 (fs w) with
       | inl _ => ret tt w
       | inr f => ret tt (set_fs f w)
       end) w.

(** [os.Create(versionMarker)], [f.WriteString], [f.Close]: writing to the
    nil file of a failed [Create] does nothing. *)
Definition writeMarker (versionMarker : string) (release : ReleaseInfo) : Prog unit :=
  fun w =>
    match Fs.open_write (cwd E) (umask E) true true versionMarker 438 (fs w) with
    | inl _ => Printf (MsgMarkerWarning versionMarker) w
    | inr f =>
        ret tt (set_fs (Fs.write_append (cwd E) versionMarker (WindsurfVersion release) f) w)
    end.

(** Extract the archive. *)
Definition installStage (platform archivePath installPath versionMarker : string)
    (release : ReleaseInfo) : Prog unit :=
  if GoStrings.HasPrefix platform "linux-" then
    fun w =>
      match extractArchive E archivePath installPath w with
      | (w, Some _) => (Printf MsgErrorExtracting ;;; Exit 1) w
      | (w, None) =>
          (writeMarker versionMarker release ;;;
           Printf (MsgSuccess (WindsurfVersion release)) ;;;
           Printf MsgRestart) w
      end
  else Printf (MsgManualInstall archivePath).

(** The platform the run is for: the one of the flag if given, else the one
    of the machine; [None] when [platformMap] does not have it. *)
Definition selectPlatform (inv : Invocation) : option string :=
  if negb (String.eqb (platform inv) "") then platformMap !! platform inv
  else platformMap !! (GOOS inv ++ "-" ++ GOARCH inv).

Definition downloadPathOf (inv : Invocation) (home : string) : string :=
  default (GoStrings.Replace1 DefaultDownloadPath "~" home) (download_path inv).

Definition installPathOf (inv : Invocation) (home : string) : string :=
  default (GoStrings.Replace1 DefaultInstallPath "~" home) (install_path inv).

(** Get latest version info. *)
Definition resolveStage (platform : string) : Prog ReleaseInfo :=
  fun w =>
    match getLatestRelease E platform w with
    | (w, inl _) => (Printf MsgErrorCheckingUpdates ;;; Exit 1) w
    | (w, inr release) =>
        (Printf (MsgFoundVersion (WindsurfVersion release)) ;;; ret release) w
    end.

(** Abort if download directory doesn't exist. *)
Definition checkDownloadDir (downloadPath : string) : Prog unit :=
  fun w =>
    if Fs.IsNotExist (Fs.Stat (cwd E) (fs w) downloadPath)
    then (Printf (MsgNoDownloadDir downloadPath) ;;; Exit 1) w
    else ret tt w.

(** The body of [main], with the download stage as a parameter so that
    runs can be compared with runs that do not download. *)
Definition mainBodyWith (download : string -> ReleaseInfo -> Prog string)
    (inv : Invocation) : Prog unit :=
  match homeDir inv with
  | None => Printf MsgHomeDirError ;;; Exit 1
  | Some home =>
      let downloadPath := downloadPathOf inv home in
      let installPath := installPathOf inv home in
      let versionMarker := Filepath.Join installPath VersionMarker in
      match selectPlatform inv with
      | None => Printf MsgPlatformUnsupported ;;; Exit 1
      | Some platform =>
          Printf (MsgSelectedPlatform platform) ;;;
          release <- resolveStage platform ;;
          checkLocalVersion installPath versionMarker (WindsurfVersion release)
            (force_update inv) ;;;
          checkDownloadDir downloadPath ;;;
          archivePath <- download downloadPath release ;;
          verifyStage archivePath release ;;;
          replaceStage installPath (yes inv) (response inv) ;;;
          installStage platform archivePath installPath versionMarker release
      end
  end.

Definition mainBody (inv : Invocation) : Prog unit := mainBodyWith downloadStage inv.

(** The run: the world it leaves and the exit status of the process. *)
Definition main (inv : Invocation) (w : World) : World * Z :=
  match mainBody inv w with
  | (w', inl code) => (w', code)
  | (w', inr _) => (w', 0)
  end.

End Main.

(** ** The earlier revision of [extractArchive] *)

Module Legacy.
Section Legacy.
Variable E : Env.

Definition extractEntry (destPath : string) (e : Tar.Entry) (f : Fs.FS)
  : Fs.FS * option Error :=
  let target := Filepath.Join destPath (Tar.Name (Tar.Hdr e)) in
  if Ascii.eqb (Tar.Typeflag (Tar.Hdr e)) Tar.TypeDir then
    match Fs.MkdirAll (cwd E) (umask E) target 493 f with
    | inl err => (f, Some (OsError err))
    | inr f' => (f', None)
    end
  else if Ascii.eqb (Tar.Typeflag (Tar.Hdr e)) Tar.TypeReg then
    let dir := Filepath.Dir target in
    match Fs.MkdirAll (cwd E) (umask E) dir 493 f with
    | inl err => (f, Some (OsError err))
    | inr f1 =>
        match Fs.open_write (cwd E) (umask E) true false target (Tar.Mode (Tar.Hdr e)) f1 with
        | inl err => (f1, Some (OsError err))
        | inr f2 =>
            let f3 := Fs.write_at_start (cwd E) target (Tar.Data e) f2 in
            if Tar.Intact e then (f3, None) else (f3, Some TarError)
        end
    end
  else (f, None).

Fixpoint extractLoop (destPath : string) (entries : list Tar.Entry)
    (fin : Tar.StreamEnd) (f : Fs.FS) : Fs.FS * option Error :=
  match entries with
  | [] => match fin with
          | Tar.EOF => (f, None)
          | Tar.Corrupt => (f, Some TarError)
          end
  | e :: rest =>
      match extractEntry destPath e f with
      | (f', Some err) => (f', Some err)
      | (f', None) => extractLoop destPath rest fin f'
      end
  end.

Definition extractArchive (archivePath destPath : string) (w : World)
  : World * option Error :=
  let w := print (MsgExtracting archivePath destPath) w in
  match Fs.Stat (cwd E) (fs w) archivePath with
  | inl e => (w, Some (OsError e))
  | inr file =>
      let old := destPath ++ "/Windsurf" in
      let removed :=
        if negb (Fs.IsNotExist (Fs.Stat (cwd E) (fs w) old))
        then Fs.RemoveAll (cwd E) old (fs w)
        else inr (fs w) in
      match removed with
      | inl e => (w, Some (OsError e))
      | inr f0 =>
          match gunzip E file with
          | None => (set_fs f0 w, Some GzipError)
          | Some ar =>
              let '(f, r) := extractLoop destPath (Tar.Entries ar) (Tar.End_ ar) f0 in
              (set_fs f w, r)
          end
      end
  end.

End Legacy.
End Legacy.

(** * Properties *)

(** ** Version comparison *)

Module VersionSpec.
Import GoStrings Strconv Version.

(** The comparison the specification describes: the fields of both versions
    as integers, the shorter list right-padded with zeros, compared field
    by field. *)
Definition fields (v : string) : list Z := map (fun s => fst (Atoi s)) (Split v ".").

Definition pad_zeros (n : nat) (l : list Z) : list Z := (l ++ repeat 0 (n - length l))%list.

Fixpoint lexCompare (a b : list Z) : Z :=
  match a, b with
  | x :: a', y :: b' =>
      if x <? y then -1 else if y <? x then 1 else lexCompare a' b'
  | _, _ => 0
  end.

Definition compareSpec (v1 v2 : string) : Z :=
  let a := fields v1 in
  let b := fields v2 in
  let n := Nat.max (length a) (length b) in
  lexCompare (pad_zeros n a) (pad_zeros n b).

(** A decimal numeral: an optional sign and at least one digit, digits only. *)
Definition is_digit (c : ascii) : bool := (48 <=? byte_val c) && (byte_val c <=? 57).

Fixpoint all_digits (s : string) : bool :=
  match s with
  | EmptyString => true
  | String c s' => is_digit c && all_digits s'
  end.

Definition unsigned_numeral (s : string) : bool :=
  match s with
  | EmptyString => false
  | _ => all_digits s
  end.

Definition is_numeral (s : string) : bool :=
  match s with
  | EmptyString => false
  | String c rest =>
      if Ascii.eqb c "+" || Ascii.eqb c "-" then unsigned_numeral rest
      else all_digits s
  end.

(** The value of a string of digits, most significant first. *)
Fixpoint decimal_from (acc : Z) (s : string) : Z :=
  match s with
  | EmptyString => acc
  | String c s' => decimal_from (acc * 10 + (byte_val c - 48)) s'
  end.

Definition decimal_value (s : string) : Z := decimal_from 0 s.

End VersionSpec.

Section VersionFacts.
Import GoStrings Strconv Version VersionSpec.

Lemma Split_nonempty s sep : Split s sep <> [].
Proof.
  destruct s as [|c s]; simpl; [discriminate|].
  destruct (Ascii.eqb c sep); [discriminate|].
  destruct (Split s sep); discriminate.
Qed.

Lemma nth_pad_zeros (f : string -> Z) (parts : list string) (n i : nat) :
  (length parts <= n)%nat ->
  nth i (pad_zeros n (map f parts)) 0 =
  if (i <? length parts)%nat then f (nth i parts EmptyString) else 0.
Proof.
  intros Hn. unfold pad_zeros. rewrite length_map.
  destruct (Nat.ltb_spec i (length parts)) as [Hi|Hi].
  - rewrite app_nth1 by (rewrite length_map; lia).
    rewrite (nth_indep _ 0 (f EmptyString)) by (rewrite length_map; lia).
    apply map_nth.
  - rewrite app_nth2 by (rewrite length_map; lia).
    rewrite length_map. apply nth_repeat.
Qed.

Lemma length_pad_zeros n l : (length l <= n)%nat -> length (pad_zeros n l) = n.
Proof. intros H. unfold pad_zeros. rewrite length_app, repeat_length. lia. Qed.

Lemma skipn_cons_nth (l : list Z) (i : nat) :
  (i < length l)%nat -> skipn i l = nth i l 0 :: skipn (S i) l.
Proof.
  revert i. induction l as [|x l IH]; intros i Hi; simpl in Hi; [lia|].
  destruct i as [|i]; [reflexivity|].
  simpl. apply IH. lia.
Qed.

(** The loop, started at field [i], compares what is left of the padded
    field lists. *)
Lemma compareLoop_lex (v1Parts v2Parts : list string) (todo i : nat) :
  let n := Nat.max (length v1Parts) (length v2Parts) in
  let val := fun s => fst (Atoi s) in
  (todo + i = n)%nat ->
  compareLoop todo i v1Parts v2Parts =
  lexCompare (skipn i (pad_zeros n (map val v1Parts)))
             (skipn i (pad_zeros n (map val v2Parts))).
Proof.
  intros n val. revert i.
  induction todo as [|todo IH]; intros i Hi.
  - assert (i = n) by lia. subst i.
    rewrite !skipn_all2; [reflexivity| |];
      rewrite length_pad_zeros; rewrite ?length_map; lia.
  - assert (Hlt : (i < n)%nat) by lia.
    rewrite (skipn_cons_nth (pad_zeros n (map val v1Parts)) i)
      by (rewrite length_pad_zeros; rewrite ?length_map; lia).
    rewrite (skipn_cons_nth (pad_zeros n (map val v2Parts)) i)
      by (rewrite length_pad_zeros; rewrite ?length_map; lia).
    rewrite !nth_pad_zeros by lia.
    cbn [compareLoop lexCompare]. fold val.
    destruct (_ <? _); [reflexivity|].
    destruct (_ <? _); [reflexivity|].
    apply IH. lia.
Qed.

Lemma compareVersions_refines (v1 v2 : string) :
  compareVersions v1 v2 = compareSpec v1 v2.
Proof.
  unfold compareVersions, compareSpec, fields.
  rewrite !length_map.
  apply (compareLoop_lex (Split v1 ".") (Split v2 ".")). lia.
Qed.

End VersionFacts.

Section AtoiFacts.
Import GoStrings Strconv Version VersionSpec.

Lemma byte_val_range (c : ascii) : 0 <= byte_val c < 256.
Proof.
  unfold byte_val. pose proof (N_ascii_bounded c). lia.
Qed.

Lemma not_digit_fast (c : ascii) :
  is_digit c = false -> (9 <? (byte_val c - 48) mod 256) = true.
Proof.
  unfold is_digit. intros H. pose proof (byte_val_range c) as Hr.
  apply Z.ltb_lt.
  destruct (Z.leb_spec 48 (byte_val c)); simpl in H.
  - apply Z.leb_gt in H. rewrite Z.mod_small by lia. lia.
  - replace (byte_val c - 48) with (byte_val c + 208 + (-1) * 256) by lia.
    rewrite Z.mod_add by lia. rewrite Z.mod_small by lia. lia.
Qed.

Lemma digit_fast (c : ascii) :
  is_digit c = true ->
  (byte_val c - 48) mod 256 = byte_val c - 48 /\ 0 <= byte_val c - 48 <= 9.
Proof.
  unfold is_digit. intros H. apply andb_true_iff in H as [H1 H2].
  apply Z.leb_le in H1, H2. rewrite Z.mod_small by lia. lia.
Qed.

Lemma atoiFast_not_digits (s : string) (n : Z) :
  all_digits s = false -> atoiFast s n = None.
Proof.
  revert n. induction s as [|c s IH]; intros n H; simpl in *; [discriminate|].
  destruct (is_digit c) eqn:Hc; simpl in H.
  - destruct (digit_fast c Hc) as [-> Hd].
    destruct (Z.ltb_spec 9 (byte_val c - 48)); [reflexivity|]. auto.
  - now rewrite (not_digit_fast c Hc).
Qed.

Lemma atoiFast_digits (s : string) (n : Z) :
  all_digits s = true -> atoiFast s n = Some (decimal_from n s).
Proof.
  revert n. induction s as [|c s IH]; intros n H; simpl in *; [reflexivity|].
  apply andb_true_iff in H as [Hc Hs].
  destruct (digit_fast c Hc) as [-> Hd].
  destruct (Z.ltb_spec 9 (byte_val c - 48)); [lia|]. auto.
Qed.

(** A string of at most 18 digits is read as the number it writes. *)
Lemma Atoi_digits (s : string) :
  all_digits s = true -> (0 < String.length s < 19)%nat ->
  Atoi s = (decimal_value s, None).
Proof.
  intros Hd [Hpos Hlen]. unfold Atoi.
  destruct (Nat.ltb_spec 0 (String.length s)); [|lia].
  destruct (Nat.ltb_spec (String.length s) 19); [|lia]. simpl.
  destruct s as [|c0 rest]; [simpl in Hpos; lia|].
  assert (Hc0 : is_digit c0 = true) by (simpl in Hd; now apply andb_true_iff in Hd).
  assert (Hsign : Ascii.eqb c0 "-" = false /\ Ascii.eqb c0 "+" = false).
  { split; apply Ascii.eqb_neq; intros ->; discriminate Hc0. }
  destruct Hsign as [-> ->]. simpl orb. cbv iota. simpl andb. cbv iota.
  rewrite (atoiFast_digits _ 0 Hd). reflexivity.
Qed.

Lemma digit_of_not_digit (c : ascii) :
  is_digit c = false ->
  digit_of c = None \/ exists d, digit_of c = Some d /\ 10 <= d.
Proof.
  unfold is_digit, digit_of. intros ->.
  destruct ((97 <=? Z.lor (byte_val c) 32) && (Z.lor (byte_val c) 32 <=? 122)) eqn:Hl.
  - right. eexists. split; [reflexivity|].
    apply andb_true_iff in Hl as [Hl _]. apply Z.leb_le in Hl. lia.
  - now left.
Qed.

Lemma digit_of_digit (c : ascii) :
  is_digit c = true -> digit_of c = Some (byte_val c - 48).
Proof. unfold is_digit, digit_of. now intros ->. Qed.

(** Within the first 19 bytes [ParseUint] cannot overflow, so a byte that
    is not a digit is reported as a syntax error. *)
Lemma parseUintLoop_syntax (s : string) (n : Z) (k : nat) :
  all_digits s = false ->
  0 <= n < 10 ^ Z.of_nat k -> (k + String.length s <= 19)%nat ->
  parseUintLoop s n = (0, Some ErrSyntax).
Proof.
  revert n k. induction s as [|c s IH]; intros n k H Hn Hk; simpl in *; [discriminate|].
  destruct (is_digit c) eqn:Hc; simpl in H.
  - rewrite (digit_of_digit c Hc).
    apply digit_fast in Hc as [_ Hd].
    destruct (Z.leb_spec 10 (byte_val c - 48)); [lia|].
    assert (Hpow : 10 ^ Z.of_nat k <= 10 ^ 18) by (apply Z.pow_le_mono_r; lia).
    assert (Hsucc : 10 ^ Z.of_nat (S k) = 10 * 10 ^ Z.of_nat k)
      by (rewrite Nat2Z.inj_succ; apply Z.pow_succ_r; lia).
    unfold maxUint64.
    destruct (Z.leb_spec ((2 ^ 64 - 1) / 10 + 1) n) as [Hcut|_].
    { change ((2 ^ 64 - 1) / 10 + 1) with 1844674407370955162 in Hcut.
      change (10 ^ 18) with 1000000000000000000 in Hpow. lia. }
    change (10 ^ 18) with 1000000000000000000 in Hpow.
    rewrite Z.mod_small by (change (2 ^ 64) with 18446744073709551616; lia).
    destruct (Z.ltb_spec (n * 10 + (byte_val c - 48)) (n * 10)); [lia|].
    destruct (Z.ltb_spec (2 ^ 64 - 1) (n * 10 + (byte_val c - 48))) as [Hbig|_].
    { change (2 ^ 64 - 1) with 18446744073709551615 in Hbig. lia. }
    simpl orb. cbv iota.
    apply (IH _ (S k)); [assumption| |lia].
    rewrite Hsucc. lia.
  - destruct (digit_of_not_digit c Hc) as [->|[d [-> Hd]]]; [reflexivity|].
    destruct (Z.leb_spec 10 d); [reflexivity|lia].
Qed.

Lemma ParseUint_syntax (s : string) :
  unsigned_numeral s = false -> (String.length s <= 19)%nat ->
  ParseUint s = (0, Some ErrSyntax).
Proof.
  intros H Hlen. destruct s as [|c s]; [reflexivity|].
  unfold ParseUint. apply (parseUintLoop_syntax _ 0 0); [exact H|simpl; lia|simpl in *; lia].
Qed.

Lemma ParseInt_syntax (s : string) :
  is_numeral s = false -> (String.length s <= 19)%nat ->
  ParseInt s = (0, Some ErrSyntax).
Proof.
  intros H Hlen. destruct s as [|c0 rest]; [reflexivity|].
  unfold ParseInt. simpl in H.
  rewrite (orb_comm (Ascii.eqb c0 "+") (Ascii.eqb c0 "-")) in H.
  destruct (Ascii.eqb c0 "+" || Ascii.eqb c0 "-") eqn:Hsign.
  - rewrite orb_comm in Hsign. rewrite Hsign in H.
    rewrite ParseUint_syntax; [reflexivity|assumption|simpl in Hlen; lia].
  - rewrite orb_comm in Hsign. rewrite Hsign in H.
    rewrite ParseUint_syntax; [reflexivity|exact H|assumption].
Qed.

(** What is not a numeral, and is shorter than 20 bytes, is read as 0. *)
Lemma Atoi_non_numeral (s : string) :
  is_numeral s = false -> (String.length s < 20)%nat ->
  Atoi s = (0, Some ErrSyntax).
Proof.
  intros H Hlen. unfold Atoi.
  destruct ((0 <? String.length s)%nat && (String.length s <? 19)%nat) eqn:Hfast;
    [|apply ParseInt_syntax; [assumption|lia]].
  destruct s as [|c0 rest]; [reflexivity|].
  simpl in H.
  rewrite (orb_comm (Ascii.eqb c0 "-") (Ascii.eqb c0 "+")).
  destruct (Ascii.eqb c0 "+" || Ascii.eqb c0 "-") eqn:Hsign.
  - simpl andb. destruct rest as [|c1 rest']; [reflexivity|].
    simpl Nat.ltb. cbv iota.
    now rewrite (atoiFast_not_digits _ 0 H).
  - simpl andb. cbv iota.
    now rewrite (atoiFast_not_digits (String c0 rest) 0 H).
Qed.

End AtoiFacts.

Section VersionClaims.
Import GoStrings Strconv Version VersionSpec.

(** C4. [compareVersions] compares the dot-separated fields of two versions
    as integers, field by field, the shorter version right-padded with zero
    fields: it computes [compareSpec], a field of at most 18 digits is read
    as the number it writes, and in particular
    compare("1.2.3","1.2.10") < 0, compare("1.2","1.2.0") = 0 and
    compare("2.0.0","1.9.9") > 0. *)
Theorem compareVersions_componentwise :
  (forall v1 v2 : string, compareVersions v1 v2 = compareSpec v1 v2)
  /\ (forall s : string,
        all_digits s = true -> (0 < String.length s < 19)%nat ->
        fst (Atoi s) = decimal_value s)
  /\ compareVersions "1.2.3" "1.2.10" < 0
  /\ compareVersions "1.2" "1.2.0" = 0
  /\ compareVersions "2.0.0" "1.9.9" > 0.
Proof.
  split; [exact compareVersions_refines|].
  split; [intros s Hd Hl; now rewrite Atoi_digits|].
  repeat split; vm_compute; reflexivity.
Qed.

Lemma compareVersions_componentwise_witness :
  fst (Atoi "10") = decimal_value "10".
Proof.
  apply (proj1 (proj2 compareVersions_componentwise) "10").
  - reflexivity.
  - simpl. lia.
Defined.

(** The fields C10 speaks of, as the claim words them: not a numeral, or
    the field ["0"]. *)
Definition non_numeric_or_zero (c : string) : bool :=
  negb (is_numeral c) || String.eqb c "0".

(** The fields that are read as 0: ["0"], and what is not a numeral and is
    shorter than 20 bytes. *)
Definition read_as_zero (c : string) : bool :=
  String.eqb c "0" || (negb (is_numeral c) && (String.length c <? 20)%nat).

Lemma lexCompare_zeros (a b : list Z) :
  Forall (fun x => x = 0) a -> Forall (fun x => x = 0) b -> lexCompare a b = 0.
Proof.
  intros Ha. revert b. induction Ha as [|x a Hx Ha IH]; intros b Hb; [reflexivity|].
  destruct Hb as [|y b Hy Hb]; [reflexivity|].
  subst x y. simpl. apply IH, Hb.
Qed.

Lemma pad_zeros_zeros (n : nat) (l : list Z) :
  Forall (fun x => x = 0) l -> Forall (fun x => x = 0) (pad_zeros n l).
Proof.
  intros H. unfold pad_zeros. apply Forall_app. split; [exact H|].
  apply Forall_forall. intros x Hx. apply list_elem_of_In in Hx.
  now apply repeat_spec in Hx.
Qed.

Lemma read_as_zero_Atoi (c : string) : read_as_zero c = true -> fst (Atoi c) = 0.
Proof.
  unfold read_as_zero. intros H. apply orb_true_iff in H as [H|H].
  - apply String.eqb_eq in H. now subst c.
  - apply andb_true_iff in H as [Hn Hl].
    apply negb_true_iff in Hn. apply Nat.ltb_lt in Hl.
    now rewrite Atoi_non_numeral.
Qed.

Lemma fields_zero (v : string) :
  forallb read_as_zero (Split v ".") = true -> Forall (fun x => x = 0) (fields v).
Proof.
  unfold fields. induction (Split v ".") as [|c l IH]; simpl; intros H; [constructor|].
  apply andb_true_iff in H as [Hc Hl].
  constructor; [now apply read_as_zero_Atoi|auto].
Qed.

(** C10, as stated, fails: a field whose leading digits overflow 64 bits is
    not a numeral, yet [Atoi] reports a range error for it and returns the
    largest [int], which [compareVersions] then compares. *)
Lemma compareVersions_overflow_counterexample :
  forallb non_numeric_or_zero (Split "99999999999999999999x" ".") = true
  /\ forallb non_numeric_or_zero (Split "0" ".") = true
  /\ Atoi "99999999999999999999x" = (maxInt64, Some ErrRange)
  /\ compareVersions "99999999999999999999x" "0" = 1.
Proof. repeat split; vm_compute; reflexivity. Qed.

(** C10, amended. A field that is not a numeral and is shorter than 20 bytes
    fails to parse and is silently read as 0: for every two versions whose
    fields are all such fields or ["0"], [compareVersions] returns 0; so do
    compareVersions("1.beta","1.0") and compareVersions("abc","0"). *)
Theorem compareVersions_unparsable_as_zero :
  (forall v1 v2 : string,
      forallb read_as_zero (Split v1 ".") = true ->
      forallb read_as_zero (Split v2 ".") = true ->
      compareVersions v1 v2 = 0)
  /\ compareVersions "1.beta" "1.0" = 0
  /\ compareVersions "abc" "0" = 0.
Proof.
  split.
  - intros v1 v2 H1 H2. rewrite compareVersions_refines. unfold compareSpec.
    apply lexCompare_zeros; apply pad_zeros_zeros; now apply fields_zero.
  - split; vm_compute; reflexivity.
Qed.

Lemma compareVersions_unparsable_as_zero_witness :
  compareVersions "rc.x" "0.0.beta" = 0.
Proof.
  apply (proj1 compareVersions_unparsable_as_zero "rc.x" "0.0.beta").
  - reflexivity.
  - reflexivity.
Defined.

End VersionClaims.

(** ** The archive installer *)

Section StringFacts.
Import GoStrings.

Lemma append_cons (c : ascii) (p s : string) : String c p ++ s = String c (p ++ s).
Proof. reflexivity. Qed.




Lemma HasPrefix_spec (s p : string) :
  HasPrefix s p = true -> s = p ++ drop_bytes (String.length p) s.
Proof.
  revert s. induction p as [|a p IH]; intros s H; [reflexivity|].
  destruct s as [|b s]; simpl in H; [discriminate|].
  destruct (Ascii.eqb_spec a b) as [->|]; [|discriminate].
  rewrite append_cons. simpl. f_equal. now apply IH.
Qed.


End StringFacts.

Section InstallerFacts.
Variable E : Env.

(** What the guard does reject: an entry whose name [filepath.IsLocal]
    refuses ends the extraction with an error, before the name is joined
    with the destination, and leaves the file system as it was. *)
Lemma extractEntry_rejects_nonlocal (destPath : string) (e : Tar.Entry) (f : Fs.FS) :
  Filepath.IsLocal (Tar.Name (Tar.Hdr e)) = false ->
  extractEntry E destPath e f = (f, Some (NonLocalPath (Tar.Name (Tar.Hdr e)))).
Proof. intros H. unfold extractEntry. now rewrite H. Qed.

Lemma IsLocal_absolute (name : string) :
  Filepath.IsAbs name = true -> Filepath.IsLocal name = false.
Proof. intros H. unfold Filepath.IsLocal. now rewrite H. Qed.

Lemma extractLoop_stops (destPath : string) (e : Tar.Entry) (rest : list Tar.Entry)
    (fin : Tar.StreamEnd) (f f' : Fs.FS) (err : Error) :
  extractEntry E destPath e f = (f', Some err) ->
  extractLoop E destPath (e :: rest) fin f = (f', Some err).
Proof. intros H. simpl. now rewrite H. Qed.


(** An entry that is not under the wrapper directory keeps its name. *)
Lemma extractEntry_keeps_other (destPath : string) (e : Tar.Entry) (f : Fs.FS) :
  GoStrings.HasPrefix (Tar.Name (Tar.Hdr e)) "Windsurf/" = false ->
  Filepath.IsLocal (Tar.Name (Tar.Hdr e)) = true ->
  extractEntry E destPath e f =
  materialize E (Filepath.Join destPath (Tar.Name (Tar.Hdr e))) e f.
Proof.
  intros Hp Hl. unfold extractEntry, GoStrings.TrimPrefix. rewrite Hl, Hp. simpl.
  destruct (String.eqb_spec (Tar.Name (Tar.Hdr e)) "") as [Heq|]; [|reflexivity].
  rewrite Heq in Hl. discriminate Hl.
Qed.

End InstallerFacts.

(** From here on [++] is the append of lists; strings are appended with [+:+]. *)
Local Open Scope list_scope.

Section FsFacts.
Import Fs.

Lemma walk_snoc (f : FS) (seen rest : list string) (x : string) :
  walk f seen (rest ++ [x]) =
  match walk f seen rest with
  | inl e => inl e
  | inr (File _ _) => inl ENOTDIR
  | inr (Dir _) =>
      match node_at f (seen ++ rest ++ [x]) with
      | None => inl ENOENT
      | Some n => inr n
      end
  end.
Proof.
  revert seen. induction rest as [|c rest IH]; intros seen.
  - simpl. destruct (node_at f seen) as [[perm|perm data]|]; reflexivity.
  - simpl. destruct (node_at f seen) as [[perm|perm data]|]; try reflexivity.
    rewrite IH. rewrite <- app_assoc. reflexivity.
Qed.

Lemma lookup_path_snoc (f : FS) (p : list string) (x : string) :
  lookup_path f (p ++ [x]) =
  match lookup_path f p with
  | inl e => inl e
  | inr (File _ _) => inl ENOTDIR
  | inr (Dir _) =>
      match f !! (p ++ [x]) with
      | None => inl ENOENT
      | Some n => inr n
      end
  end.
Proof.
  unfold lookup_path. rewrite walk_snoc. simpl.
  destruct (walk f [] p) as [e|[perm|perm data]]; try reflexivity.
  unfold node_at. destruct (p ++ [x]) eqn:Hp; [|reflexivity].
  now apply app_eq_nil in Hp as [_ Hp].
Qed.

Lemma parent_snoc (p : list string) (x : string) : parent (p ++ [x]) = p.
Proof. unfold parent. apply removelast_last. Qed.


Lemma append_nil_r (s : string) : s +:+ "" = s.
Proof.
  induction s as [|c s IH]; [reflexivity|].
  rewrite append_cons. now f_equal.
Qed.

End FsFacts.

Section InstallerClaims.
Variable E : Env.
Import Fs.



End InstallerClaims.

(** ** A concrete setting

    A Linux machine with home directory [/home/u], a release 1.5.0 whose
    archive holds the wrapper directory, a [bin] directory and one
    program, and a server that delivers both. *)

Module Demo.

Definition payload : string := "ARCHIVE-1.5.0".

Definition archive : Tar.Archive :=
  Tar.mkArchive
    [ Tar.mkEntry (Tar.mkHeader "Windsurf/" Tar.TypeDir 493) "" true;
      Tar.mkEntry (Tar.mkHeader "Windsurf/bin/" Tar.TypeDir 493) "" true;
      Tar.mkEntry (Tar.mkHeader "Windsurf/bin/app" Tar.TypeReg 493) "#!app" true ]
    Tar.EOF.

Definition release : ReleaseInfo :=
  mkReleaseInfo "https://dl.example/windsurf.tar.gz" "Windsurf" "1.100.0" "1.100.0"
    "abcdef" 0 (Sha256.Sum256Hex payload) false "1.5.0".

(** The server answers the archive URL with [body] and everything else with
    the release descriptor. *)
Definition serving (body : string) : Http.Server :=
  fun _ req =>
    if String.eqb (Http.URL req) (URL release)
    then Some (Http.mkResponse 200 body true)
    else Some (Http.mkResponse 200 "{release}" true).

Definition env (srv : Http.Server) : Env :=
  mkEnv [] 18 4096 srv (fun _ => true)
    (fun body => if String.eqb body "{release}" then Some release else None)
    (fun bytes => if String.eqb bytes payload then Some archive else None).

Definition home_fs : Fs.FS :=
  <[["home"] := Fs.Dir 493]>
    (<[["home"; "u"] := Fs.Dir 493]>
       (<[["home"; "u"; "Downloads"] := Fs.Dir 493]> ∅)).

Definition invocation (force assume_yes : bool) (answer : string) : Invocation :=
  mkInvocation (Some "/home/u") "linux" "amd64" None None "" force assume_yes answer.

Definition start (f : Fs.FS) : World := mkWorld f [] [].

Definition install_fs : Fs.FS := <[["install"] := Fs.Dir 493]> ∅.

End Demo.

Section InstallerDefects.
Import Fs.


(** The whole demo archive, extracted into an empty [/install]. *)
Example extractLoop_demo_archive (E : Env) :
  extractLoop E "/install" (Tar.Entries Demo.archive) Tar.EOF Demo.install_fs =
  (<[["install"; "bin"; "app"] := File (apply_umask (umask E) 493) "#!app"]>
     (<[["install"; "bin"] := Dir (apply_umask (umask E) 493)]> Demo.install_fs), None).
Proof. reflexivity. Qed.

(** And a wrapper directory entry written without the trailing slash is
    not stripped: it is created below the destination. *)
Example extractEntry_wrapper_without_slash (E : Env) :
  extractEntry E "/install" (Tar.mkEntry (Tar.mkHeader "Windsurf" Tar.TypeDir 493) "" true)
    Demo.install_fs =
  (<[["install"; "Windsurf"] := Dir (apply_umask (umask E) 493)]> Demo.install_fs, None).
Proof. reflexivity. Qed.

(** An entry that climbs out of the wrapper directory. *)
Definition escaping_entry : Tar.Entry :=
  Tar.mkEntry (Tar.mkHeader "Windsurf/../etc/cron.d/job" Tar.TypeReg 420) "* * * * * root sh" true.

Definition victim_fs : FS :=
  <[["etc"; "cron.d"] := Dir 493]> (<[["etc"] := Dir 493]> Demo.install_fs).

(** C1 fails on the code. The guard looks at the name before [Windsurf/] is
    stripped from it: the name [Windsurf/../etc/cron.d/job] is local, what
    is left after stripping is [../etc/cron.d/job], and joined with the
    destination root [/install] it names [/etc/cron.d/job]. The extraction
    succeeds and has written a file outside the destination root. *)
Theorem extractArchive_escapes_destination (E : Env) :
  Filepath.IsLocal (Tar.Name (Tar.Hdr escaping_entry)) = true
  /\ Filepath.Join "/install"
       (GoStrings.TrimPrefix (Tar.Name (Tar.Hdr escaping_entry)) "Windsurf/")
     = "/etc/cron.d/job"
  /\ extractLoop E "/install" [escaping_entry] Tar.EOF victim_fs =
     (<[["etc"; "cron.d"; "job"] := File (apply_umask (umask E) 420) "* * * * * root sh"]>
        victim_fs, None).
Proof. repeat split; reflexivity. Qed.

(** The earlier revision has no guard at all. *)
Example Legacy_extract_escapes (E : Env) :
  Legacy.extractLoop E "/install"
    [Tar.mkEntry (Tar.mkHeader "../etc/passwd" Tar.TypeReg 420) "root::0:0" true]
    Tar.EOF victim_fs =
  (<[["etc"; "passwd"] := File (apply_umask (umask E) 420) "root::0:0"]> victim_fs, None).
Proof. reflexivity. Qed.

(** A regular file whose directory has no entry of its own in the archive. *)
Definition lonely_entry : Tar.Entry :=
  Tar.mkEntry (Tar.mkHeader "Windsurf/bin/app" Tar.TypeReg 493) "#!app" true.

(** C6 fails on the code. The current [extractArchive] opens the target of a
    regular file without creating the directories above it: with only
    [/install] in place, the entry [Windsurf/bin/app] fails with [ENOENT]
    and nothing is written. The earlier revision calls
    [os.MkdirAll(filepath.Dir(target))] first and succeeds on the same
    entry. *)
Theorem extractArchive_missing_parent (E : Env) :
  extractLoop E "/install" [lonely_entry] Tar.EOF Demo.install_fs =
    (Demo.install_fs, Some (OsError ENOENT))
  /\ Legacy.extractLoop E "/install" [lonely_entry] Tar.EOF Demo.install_fs =
    (<[["install"; "Windsurf"; "bin"; "app"] := File (apply_umask (umask E) 493) "#!app"]>
       (<[["install"; "Windsurf"; "bin"] := Dir (apply_umask (umask E) 493)]>
          (<[["install"; "Windsurf"] := Dir (apply_umask (umask E) 493)]> Demo.install_fs)),
     None).
Proof. split; reflexivity. Qed.

(** Both revisions open the target without [O_TRUNC]: a second, shorter
    entry of the same name leaves the tail of the first one in the file. *)
Example extractLoop_keeps_tail (E : Env) :
  extractLoop E "/install"
    [ Tar.mkEntry (Tar.mkHeader "Windsurf/notes" Tar.TypeReg 420) "first version" true;
      Tar.mkEntry (Tar.mkHeader "Windsurf/notes" Tar.TypeReg 420) "second" true ]
    Tar.EOF Demo.install_fs =
  (<[["install"; "notes"] := File (apply_umask (umask E) 420) "secondversion"]>
     Demo.install_fs, None).
Proof. reflexivity. Qed.

End InstallerDefects.

(** ** The downloader *)

Section DownloaderFacts.
Variable E : Env.
Import Fs.

(** The part of [downloadFile] after the status checks sends nothing. *)
Lemma storeBody_sent (filepath partialPath : string) (startOffset : Z)
    (resp : Http.Response) (w : World) :
  sent (fst (storeBody E filepath partialPath startOffset resp w)) = sent w.
Proof.
  unfold storeBody.
  destruct (if 0 <? startOffset then _ else _) as [e|f]; [reflexivity|].
  destruct (negb (Http.BodyComplete resp)); [reflexivity|].
  destruct (Rename _ _ _ _); reflexivity.
Qed.

Lemma Stat_file_inv (f : FS) (path : string) (n : Node) :
  Stat (cwd E) f path = inr n ->
  String.eqb path "" = false /\ lookup_path f (resolve (cwd E) path) = inr n.
Proof.
  unfold Stat. destruct (String.eqb path ""); [discriminate|]. auto.
Qed.

Lemma Remove_file (f : FS) (path : string) (perm : Z) (data : string) :
  Stat (cwd E) f path = inr (File perm data) ->
  Remove (cwd E) path f = inr (delete (resolve (cwd E) path) f).
Proof.
  intros H. apply Stat_file_inv in H as [Hne Hl].
  unfold Remove. now rewrite Hne, Hl.
Qed.

(** C3. When a range request was sent (a partial file of positive size
    exists) and the answer is not 206 Partial Content, the partial file is
    deleted, the start offset is reset to 0 and the request is reissued
    once, without the Range header. Nothing is sent after that: a transport
    error or a status other than 200 and 206 on the second request is a
    transfer error, and any other answer is stored from offset 0. *)
Theorem downloadFile_range_fallback
    (url filepath : string) (w : World) (perm : Z) (old : string)
    (resp1 : Http.Response) :
  let partialPath := filepath +:+ ".partial" in
  let size := Z.of_nat (String.length old) in
  let ranged := Http.mkRequest url (Some ("bytes=" +:+ pretty size +:+ "-")) in
  let plain := Http.mkRequest url None in
  let w2 := mkWorld (delete (resolve (cwd E) partialPath) (fs w))
                    (sent w ++ [ranged; plain])
                    (out w ++ [MsgResuming size]) in
  Stat (cwd E) (fs w) partialPath = inr (File perm old) ->
  old <> "" ->
  url_ok E url = true ->
  server E (sent w) ranged = Some resp1 ->
  Http.StatusCode resp1 <> Http.StatusPartialContent ->
  downloadFile E url filepath w =
    match server E (sent w ++ [ranged]) plain with
    | None => (w2, Some TransportError)
    | Some resp2 =>
        if (Http.StatusCode resp2 =? Http.StatusOK)
           || (Http.StatusCode resp2 =? Http.StatusPartialContent)
        then storeBody E filepath partialPath 0 resp2 w2
        else (w2, Some (StatusError (Http.StatusCode resp2)))
    end
  /\ sent (fst (downloadFile E url filepath w)) = sent w ++ [ranged; plain].
Proof.
  intros partialPath size ranged plain w2 Hstat Hold Hurl Hsrv Hstatus.
  assert (Hpos : (0 <? size) = true).
  { apply Z.ltb_lt. subst size. destruct old; [contradiction|simpl; lia]. }
  assert (Heq : downloadFile E url filepath w =
    match server E (sent w ++ [ranged]) plain with
    | None => (w2, Some TransportError)
    | Some resp2 =>
        if (Http.StatusCode resp2 =? Http.StatusOK)
           || (Http.StatusCode resp2 =? Http.StatusPartialContent)
        then storeBody E filepath partialPath 0 resp2 w2
        else (w2, Some (StatusError (Http.StatusCode resp2)))
    end).
  { unfold downloadFile. fold partialPath. rewrite Hstat.
    cbn [node_size]. fold size. rewrite Hpos, Hurl. cbn [negb].
    fold ranged. unfold Do. cbn [print fs sent out].
    rewrite Hsrv. cbn [andb].
    destruct (Z.eqb_spec (Http.StatusCode resp1) Http.StatusPartialContent) as [|_];
      [contradiction|].
    cbn [negb]. rewrite (Remove_file _ _ _ _ Hstat).
    cbn [set_fs fs sent out]. fold plain.
    rewrite <- app_assoc. cbn [app]. fold w2.
    destruct (server E (sent w ++ [ranged]) plain) as [resp2|]; [|reflexivity].
    destruct (Http.StatusCode resp2 =? Http.StatusOK);
      destruct (Http.StatusCode resp2 =? Http.StatusPartialContent); reflexivity. }
  split; [exact Heq|].
  rewrite Heq.
  destruct (server E (sent w ++ [ranged]) plain) as [resp2|]; [|reflexivity].
  destruct (_ || _); [|reflexivity].
  now rewrite storeBody_sent.
Qed.

End DownloaderFacts.

Definition resuming_world : World :=
  Demo.start (<[["home"; "u"; "Downloads"; "windsurf-1.5.0.tar.gz.partial"]
                 := Fs.File 420 "ARCH"]> Demo.home_fs).

Lemma downloadFile_range_fallback_witness :
  sent (fst (downloadFile (Demo.env (Demo.serving Demo.payload)) (URL Demo.release)
               "/home/u/Downloads/windsurf-1.5.0.tar.gz" resuming_world)) =
  [ Http.mkRequest (URL Demo.release) (Some "bytes=4-");
    Http.mkRequest (URL Demo.release) None ].
Proof.
  refine (proj2 (downloadFile_range_fallback (Demo.env (Demo.serving Demo.payload))
                   (URL Demo.release) "/home/u/Downloads/windsurf-1.5.0.tar.gz"
                   resuming_world 420 "ARCH" (Http.mkResponse 200 Demo.payload true)
                   _ _ _ _ _)).
  - vm_compute. reflexivity.
  - discriminate.
  - reflexivity.
  - reflexivity.
  - vm_compute. discriminate.
Defined.

(** The fallback at work: the stale partial file is discarded and the file
    that arrives is the full body. *)
Example downloadFile_fallback_demo :
  let E := Demo.env (Demo.serving Demo.payload) in
  let w := Demo.start (<[["home"; "u"; "Downloads"; "windsurf-1.5.0.tar.gz.partial"]
                          := Fs.File 420 "STALE"]> Demo.home_fs) in
  let r := downloadFile E (URL Demo.release) "/home/u/Downloads/windsurf-1.5.0.tar.gz" w in
  snd r = None
  /\ fs (fst r) = <[["home"; "u"; "Downloads"; "windsurf-1.5.0.tar.gz"]
                     := Fs.File 420 Demo.payload]> Demo.home_fs.
Proof. split; reflexivity. Qed.

(** ** The orchestrator *)

Section StageFacts.
Variable E : Env.
Import Fs.

(** A stage that leaves the file system and the list of requests alone. *)
Definition quiet {A} (m : Prog A) : Prop :=
  forall w, fs (fst (m w)) = fs w /\ sent (fst (m w)) = sent w.

Lemma quiet_ret {A} (a : A) : quiet (ret a).
Proof. intros w. split; reflexivity. Qed.

Lemma quiet_Exit {A} (code : Z) : quiet (@Exit A code).
Proof. intros w. split; reflexivity. Qed.

Lemma quiet_Printf (m : Msg) : quiet (Printf m).
Proof. intros w. split; reflexivity. Qed.

Lemma quiet_bind {A B} (m : Prog A) (k : A -> Prog B) :
  quiet m -> (forall a, quiet (k a)) -> quiet (bind m k).
Proof.
  intros Hm Hk w. unfold bind. specialize (Hm w).
  destruct (m w) as [w' [code|a]]; [exact Hm|].
  destruct (Hk a w') as [H1 H2]. simpl in Hm. destruct Hm as [H3 H4].
  split; congruence.
Qed.

Lemma quiet_checkLocalVersion (installPath versionMarker latest : string) (force : bool) :
  quiet (checkLocalVersion E installPath versionMarker latest force).
Proof.
  intros w. unfold checkLocalVersion.
  destruct (_ && _); [|split; reflexivity].
  destruct (ReadFile _ _ _); [split; reflexivity|].
  destruct (0 <=? _); split; reflexivity.
Qed.

Lemma quiet_checkDownloadDir (downloadPath : string) :
  quiet (checkDownloadDir E downloadPath).
Proof.
  intros w. unfold checkDownloadDir. destruct (IsNotExist _); split; reflexivity.
Qed.

Lemma quiet_verifyStage (archivePath : string) (release : ReleaseInfo) :
  quiet (verifyStage E archivePath release).
Proof.
  intros w. unfold verifyStage.
  destruct (calculateSHA256 _ _ _); [split; reflexivity|].
  destruct (negb _); split; reflexivity.
Qed.

(** Stages that send nothing. *)
Definition silent {A} (m : Prog A) : Prop := forall w, sent (fst (m w)) = sent w.

Lemma quiet_silent {A} (m : Prog A) : quiet m -> silent m.
Proof. intros H w. apply H. Qed.

Lemma silent_bind {A B} (m : Prog A) (k : A -> Prog B) :
  silent m -> (forall a, silent (k a)) -> silent (bind m k).
Proof.
  intros Hm Hk w. unfold bind. specialize (Hm w).
  destruct (m w) as [w' [code|a]]; [exact Hm|].
  rewrite (Hk a w'). exact Hm.
Qed.

Lemma silent_replaceStage (installPath : string) (yes : bool) (response : string) :
  silent (replaceStage E installPath yes response).
Proof.
  intros w. unfold replaceStage, bind, Printf, Exit, ret.
  destruct (negb (IsNotExist _)).
  - destruct yes; simpl.
    + destruct (RemoveAll _ _ _); simpl; [reflexivity|].
      destruct (MkdirAll _ _ _ _ _); reflexivity.
    + destruct (declined response); simpl; [reflexivity|].
      destruct (RemoveAll _ _ _); simpl; [reflexivity|].
      destruct (MkdirAll _ _ _ _ _); reflexivity.
  - simpl. destruct (MkdirAll _ _ _ _ _); reflexivity.
Qed.

Lemma extractArchive_sent (archivePath destPath : string) (w : World) :
  sent (fst (extractArchive E archivePath destPath w)) = sent w.
Proof.
  unfold extractArchive. cbn [print fs sent].
  destruct (Stat _ _ _); [reflexivity|].
  destruct (gunzip _ _); [|reflexivity].
  destruct (extractLoop _ _ _ _ _). reflexivity.
Qed.

Lemma silent_writeMarker (versionMarker : string) (release : ReleaseInfo) :
  silent (writeMarker E versionMarker release).
Proof. intros w. unfold writeMarker. destruct (open_write _ _ _ _ _ _ _); reflexivity. Qed.

Lemma silent_installStage (platform archivePath installPath versionMarker : string)
    (release : ReleaseInfo) :
  silent (installStage E platform archivePath installPath versionMarker release).
Proof.
  unfold installStage. destruct (GoStrings.HasPrefix _ _).
  - intros w. pose proof (extractArchive_sent archivePath installPath w) as Hs.
    destruct (extractArchive _ _ _ _) as [w' [err|]]; simpl in Hs.
    + simpl. exact Hs.
    + rewrite <- Hs.
      apply (silent_bind (writeMarker E versionMarker release)).
      * apply silent_writeMarker.
      * intros _. apply quiet_silent, quiet_bind; [apply quiet_Printf|].
        intros _. apply quiet_Printf.
  - apply quiet_silent, quiet_Printf.
Qed.

(** Binding after a stage that is known to continue. *)
Lemma bind_continue {A B} (m : Prog A) (k : A -> Prog B) (w w' : World) (a : A) :
  m w = (w', inr a) -> bind m k w = k a w'.
Proof. intros H. unfold bind. now rewrite H. Qed.

(** Two continuations that agree wherever the first stage can lead. *)
Lemma bind_ext_after {A B} (m : Prog A) (k1 k2 : A -> Prog B) (w : World) :
  (forall a w', m w = (w', inr a) -> k1 a w' = k2 a w') ->
  bind m k1 w = bind m k2 w.
Proof.
  intros H. unfold bind. destruct (m w) as [w' [code|a]]; [reflexivity|]. now apply H.
Qed.

End StageFacts.

Section OrchestratorClaims.
Variable E : Env.
Import Fs.

(** The request that resolves the release for a platform. *)
Definition releaseRequest (platform : string) : Http.Request :=
  Http.mkRequest (UpdateApiUrl platform) None.

(** The server answers the release request of a run started in [w] with
    [release]. *)
Definition resolves (w : World) (platform : string) (release : ReleaseInfo) : Prop :=
  exists resp,
    server E (sent w) (releaseRequest platform) = Some resp
    /\ Http.StatusCode resp = Http.StatusOK
    /\ decodeRelease E (Http.Body resp) = Some release.

Lemma resolveStage_resolves (w : World) (platform : string) (release : ReleaseInfo) :
  resolves w platform release ->
  resolveStage E platform w =
  (mkWorld (fs w) (sent w ++ [releaseRequest platform])
           (out w ++ [MsgFoundVersion (WindsurfVersion release)]), inr release).
Proof.
  intros (resp & Hsrv & Hst & Hdec).
  unfold resolveStage, getLatestRelease, Do. fold (releaseRequest platform).
  rewrite Hsrv, Hst, Hdec. reflexivity.
Qed.

(** What the specification asks for when the archive is there: no
    transfer, straight on to the verification. *)
Definition skipDownload (downloadPath : string) (release : ReleaseInfo) : Prog string :=
  Printf MsgDownloadSkipped ;;; ret (archivePathOf downloadPath release).

Lemma downloadStage_existing (downloadPath : string) (release : ReleaseInfo)
    (w : World) (node : Node) :
  Stat (cwd E) (fs w) (archivePathOf downloadPath release) = inr node ->
  downloadStage E downloadPath release w = skipDownload downloadPath release w.
Proof. intros H. unfold downloadStage. now rewrite H. Qed.

Lemma main_world (inv : Invocation) (w : World) :
  fst (main E inv w) = fst (mainBody E inv w).
Proof. unfold main. destruct (mainBody E inv w) as [w' [code|u]]; reflexivity. Qed.

(** C7. When a file is already at the archive path of the resolved
    version, the run is the run without the download stage: after the
    checks it goes straight on to the verification, and the only request
    it sends is the one that resolved the release. *)
Theorem main_skips_existing_archive
    (inv : Invocation) (w : World) (home platform : string)
    (release : ReleaseInfo) (node : Node) :
  homeDir inv = Some home ->
  selectPlatform inv = Some platform ->
  resolves w platform release ->
  Stat (cwd E) (fs w) (archivePathOf (downloadPathOf inv home) release) = inr node ->
  mainBody E inv w = mainBodyWith E skipDownload inv w
  /\ main E inv w =
     (let '(w', r) := mainBodyWith E skipDownload inv w in
      (w', match r with inl code => code | inr _ => 0 end))
  /\ sent (fst (main E inv w)) = sent w ++ [releaseRequest platform].
Proof.
  intros Hhome Hplat Hres Hstat.
  assert (Heq : mainBody E inv w = mainBodyWith E skipDownload inv w).
  { unfold mainBody, mainBodyWith. rewrite Hhome, Hplat.
    apply bind_ext_after. intros [] w1 H1.
    assert (Hfs1 : fs w1 = fs w) by (injection H1 as <-; reflexivity).
    apply bind_ext_after. intros release' w2 H2.
    assert (Hw1 : resolves w1 platform release).
    { injection H1 as <-. exact Hres. }
    rewrite (resolveStage_resolves _ _ _ Hw1) in H2.
    injection H2 as <- <-.
    apply bind_ext_after. intros [] w3 H3.
    pose proof (quiet_checkLocalVersion E (installPathOf inv home)
      (Filepath.Join (installPathOf inv home) VersionMarker)
      (WindsurfVersion release) (force_update inv)
      (mkWorld (fs w1) (sent w1 ++ [releaseRequest platform])
         (out w1 ++ [MsgFoundVersion (WindsurfVersion release)]))) as [Hq3 _].
    rewrite H3 in Hq3. cbn [fst fs] in Hq3.
    apply bind_ext_after. intros [] w4 H4.
    pose proof (quiet_checkDownloadDir E (downloadPathOf inv home) w3) as [Hq4 _].
    rewrite H4 in Hq4. cbn [fst] in Hq4.
    unfold bind at 1 3.
    rewrite (downloadStage_existing _ _ w4 node); [reflexivity|].
    now rewrite Hq4, Hq3, Hfs1. }
  split; [exact Heq|]. split.
  { unfold main. rewrite Heq.
    destruct (mainBodyWith E skipDownload inv w) as [w' [code|u]]; reflexivity. }
  rewrite main_world, Heq. unfold mainBodyWith. rewrite Hhome, Hplat.
  rewrite (bind_continue _ _ w (print (MsgSelectedPlatform platform) w) tt eq_refl).
  rewrite (bind_continue _ _ _ _ _
             (resolveStage_resolves (print (MsgSelectedPlatform platform) w) _ _ Hres)).
  match goal with
  | |- sent (fst (?m ?w0)) = _ => assert (Hs : silent m); [|rewrite (Hs w0); reflexivity]
  end.
  apply silent_bind; [apply quiet_silent, quiet_checkLocalVersion|intros _].
  apply silent_bind; [apply quiet_silent, quiet_checkDownloadDir|intros _].
  apply silent_bind.
  { apply quiet_silent, quiet_bind; [apply quiet_Printf|intros _; apply quiet_ret]. }
  intros archivePath.
  apply silent_bind; [apply quiet_silent, quiet_verifyStage|intros _].
  apply silent_bind; [apply silent_replaceStage|intros _].
  apply silent_installStage.
Qed.

End OrchestratorClaims.

(** A second run in the demo setting: the archive of a first run is still
    in the download directory. *)
Definition downloaded_fs : Fs.FS :=
  <[["home"; "u"; "Downloads"; "windsurf-1.5.0.tar.gz"] := Fs.File 420 Demo.payload]>
    Demo.home_fs.

Lemma main_skips_existing_archive_witness :
  sent (fst (main (Demo.env (Demo.serving Demo.payload))
                  (Demo.invocation false true "") (Demo.start downloaded_fs))) =
  [releaseRequest "linux-x64"].
Proof.
  refine (proj2 (proj2 (main_skips_existing_archive
                   (Demo.env (Demo.serving Demo.payload))
                   (Demo.invocation false true "") (Demo.start downloaded_fs)
                   "/home/u" "linux-x64" Demo.release (Fs.File 420 Demo.payload)
                   _ _ _ _))).
  - reflexivity.
  - vm_compute. reflexivity.
  - exists (Http.mkResponse 200 "{release}" true). repeat split; vm_compute; reflexivity.
  - vm_compute. reflexivity.
Defined.

Section VersionCheckClaim.
Variable E : Env.
Import Fs.

(** What [main] does once the installed version has been checked and found
    older (or could not be checked): the update itself. *)
Definition updateStages (inv : Invocation) (home platform : string)
    (release : ReleaseInfo) : Prog unit :=
  let downloadPath := downloadPathOf inv home in
  let installPath := installPathOf inv home in
  let versionMarker := Filepath.Join installPath VersionMarker in
  checkDownloadDir E downloadPath ;;;
  archivePath <- downloadStage E downloadPath release ;;
  verifyStage E archivePath release ;;;
  replaceStage E installPath (yes inv) (response inv) ;;;
  installStage E platform archivePath installPath versionMarker release.

(** The world when the release has been resolved. *)
Definition resolvedWorld (w : World) (platform : string) (release : ReleaseInfo) : World :=
  mkWorld (fs w) (sent w ++ [releaseRequest platform])
          (out w ++ [MsgSelectedPlatform platform; MsgFoundVersion (WindsurfVersion release)]).

Lemma mainBody_resolved (inv : Invocation) (w : World) (home platform : string)
    (release : ReleaseInfo) :
  homeDir inv = Some home ->
  selectPlatform inv = Some platform ->
  resolves E w platform release ->
  mainBody E inv w =
  (checkLocalVersion E (installPathOf inv home)
     (Filepath.Join (installPathOf inv home) VersionMarker)
     (WindsurfVersion release) (force_update inv) ;;;
   updateStages inv home platform release) (resolvedWorld w platform release).
Proof.
  intros Hhome Hplat Hres.
  unfold mainBody, mainBodyWith. rewrite Hhome, Hplat.
  rewrite (bind_continue _ _ w (print (MsgSelectedPlatform platform) w) tt eq_refl).
  rewrite (bind_continue _ _ _ _ _
             (resolveStage_resolves E (print (MsgSelectedPlatform platform) w) _ _ Hres)).
  unfold resolvedWorld, print. cbn [fs sent out].
  rewrite <- app_assoc. reflexivity.
Qed.

(** C9. With the release resolved: when the version marker under the
    installation root cannot be read, the run does not fail but goes on
    with the update, whatever the versions; when it can be read (and the
    installation root exists), the run ends there with status 0 and nothing
    changed exactly when the force flag is off and the installed version is
    not older than the latest one, and goes on with the update otherwise. *)
Theorem main_version_check
    (inv : Invocation) (w : World) (home platform : string) (release : ReleaseInfo) :
  let installPath := installPathOf inv home in
  let versionMarker := Filepath.Join installPath VersionMarker in
  let w1 := resolvedWorld w platform release in
  homeDir inv = Some home ->
  selectPlatform inv = Some platform ->
  resolves E w platform release ->
  (forall e, ReadFile (cwd E) (fs w) versionMarker = inl e ->
     mainBody E inv w = updateStages inv home platform release w1
     \/ mainBody E inv w =
        updateStages inv home platform release (print MsgUnableToCheckInstalled w1))
  /\ (forall vsn node,
        ReadFile (cwd E) (fs w) versionMarker = inr vsn ->
        Stat (cwd E) (fs w) installPath = inr node ->
        let existing := GoStrings.TrimSpace vsn in
        if negb (force_update inv)
           && (0 <=? Version.compareVersions existing (WindsurfVersion release))
        then main E inv w = (print (MsgAlreadyAt existing) w1, 0)
        else mainBody E inv w = updateStages inv home platform release w1).
Proof.
  intros installPath versionMarker w1 Hhome Hplat Hres.
  pose proof (mainBody_resolved inv w home platform release Hhome Hplat Hres) as Hmain.
  fold installPath versionMarker w1 in Hmain.
  unfold bind at 1 in Hmain. unfold checkLocalVersion in Hmain.
  change (fs w1) with (fs w) in Hmain.
  split.
  - intros e Hread. rewrite Hread in Hmain.
    destruct (_ && _) in Hmain; [right|left]; exact Hmain.
  - intros vsn node Hread Hstat existing.
    rewrite Hread, Hstat in Hmain. cbn [IsNotExist negb andb] in Hmain.
    fold existing in Hmain. unfold main.
    destruct (force_update inv); cbn [negb andb] in *; [exact Hmain|].
    destruct (0 <=? _); [|exact Hmain].
    rewrite Hmain. reflexivity.
Qed.

End VersionCheckClaim.

(** An installation at 1.5.0 in the demo setting. *)
Definition installed_fs : Fs.FS :=
  <[["home"; "u"; "apps"; "windsurf"; ".windsurf-release"] := Fs.File 420 "1.5.0
"]>
    (<[["home"; "u"; "apps"; "windsurf"] := Fs.Dir 493]>
       (<[["home"; "u"; "apps"] := Fs.Dir 493]> Demo.home_fs)).

Lemma main_version_check_witness :
  main (Demo.env (Demo.serving Demo.payload)) (Demo.invocation false false "")
       (Demo.start installed_fs) =
  (mkWorld installed_fs [releaseRequest "linux-x64"]
     [MsgSelectedPlatform "linux-x64"; MsgFoundVersion "1.5.0"; MsgAlreadyAt "1.5.0"], 0).
Proof.
  refine (proj2 (main_version_check (Demo.env (Demo.serving Demo.payload))
                   (Demo.invocation false false "") (Demo.start installed_fs)
                   "/home/u" "linux-x64" Demo.release _ _ _)
            "1.5.0
" (Fs.Dir 493) _ _).
  - reflexivity.
  - vm_compute. reflexivity.
  - exists (Http.mkResponse 200 "{release}" true). repeat split; vm_compute; reflexivity.
  - vm_compute. reflexivity.
  - vm_compute. reflexivity.
Defined.

(** ** Verification and replacement *)

Section HashFacts.
Import GoStrings.

Lemma append_assoc (a b c : string) : (a +:+ b) +:+ c = a +:+ (b +:+ c).
Proof.
  induction a as [|x a IH]; [reflexivity|].
  rewrite !append_cons. now f_equal.
Qed.

Lemma take_drop_bytes (n : nat) (s : string) : take_bytes n s +:+ drop_bytes n s = s.
Proof.
  revert s. induction n as [|n IH]; intros s; [destruct s; reflexivity|].
  destruct s as [|c s]; [reflexivity|].
  simpl. rewrite append_cons. now f_equal.
Qed.

Lemma length_drop_bytes (n : nat) (s : string) :
  String.length (drop_bytes n s) = (String.length s - n)%nat.
Proof.
  revert s. induction n as [|n IH]; intros s; [simpl; lia|].
  destruct s as [|c s]; [reflexivity|]. simpl. apply IH.
Qed.

(** The read loop feeds the whole file to the hash, in order. *)
Lemma hashLoop_all (reads : nat) (rest hashed : string) :
  (String.length rest < reads)%nat ->
  hashLoop reads rest hashed = hashed +:+ rest.
Proof.
  revert rest hashed. induction reads as [|reads IH]; intros rest hashed Hlen; [lia|].
  cbn [hashLoop].
  set (n := Z.to_nat (Z.min bufSize (Z.of_nat (String.length rest)))).
  assert (Hbuf : 0 < bufSize) by reflexivity.
  assert (Hn : (n <= String.length rest)%nat) by (subst n; lia).
  destruct (Nat.ltb_spec 0 n) as [Hpos|Hzero].
  - rewrite IH by (rewrite length_drop_bytes; lia).
    now rewrite append_assoc, take_drop_bytes.
  - assert (Hempty : String.length rest = 0%nat) by (subst n; lia).
    destruct rest; [|discriminate Hempty]. now rewrite append_nil_r.
Qed.

Lemma calculateSHA256_file (E : Env) (path : string) (w : World) (perm : Z) (data : string) :
  Fs.Stat (cwd E) (fs w) path = inr (Fs.File perm data) ->
  calculateSHA256 E path w = inr (Sha256.Sum256Hex data).
Proof.
  intros H. unfold calculateSHA256. rewrite H.
  rewrite hashLoop_all by lia. reflexivity.
Qed.

End HashFacts.

Section PipelineFacts.
Variable E : Env.
Import Fs.

(** The stages of [main] up to and including the download, and what they
    hand on: the release and the path of the archive. *)
Definition fetchStages (inv : Invocation) (home platform : string)
  : Prog (ReleaseInfo * string) :=
  Printf (MsgSelectedPlatform platform) ;;;
  release <- resolveStage E platform ;;
  checkLocalVersion E (installPathOf inv home)
    (Filepath.Join (installPathOf inv home) VersionMarker)
    (WindsurfVersion release) (force_update inv) ;;;
  checkDownloadDir E (downloadPathOf inv home) ;;;
  archivePath <- downloadStage E (downloadPathOf inv home) release ;;
  ret (release, archivePath).

(** The stages after the verification. *)
Definition installStages (inv : Invocation) (home platform : string)
    (release : ReleaseInfo) (archivePath : string) : Prog unit :=
  replaceStage E (installPathOf inv home) (yes inv) (response inv) ;;;
  installStage E platform archivePath (installPathOf inv home)
    (Filepath.Join (installPathOf inv home) VersionMarker) release.

Lemma mainBody_fetched (inv : Invocation) (w w4 : World) (home platform : string)
    (release : ReleaseInfo) (archivePath : string) :
  homeDir inv = Some home ->
  selectPlatform inv = Some platform ->
  fetchStages inv home platform w = (w4, inr (release, archivePath)) ->
  mainBody E inv w =
  (verifyStage E archivePath release ;;;
   installStages inv home platform release archivePath) w4.
Proof.
  intros Hhome Hplat Hfetch.
  unfold mainBody, mainBodyWith. rewrite Hhome, Hplat.
  unfold fetchStages in Hfetch. unfold installStages.
  unfold bind at 1 in Hfetch. unfold bind at 1.
  destruct (Printf (MsgSelectedPlatform platform) w) as [w1 [c|[]]]; [discriminate|].
  unfold bind at 1 in Hfetch. unfold bind at 1.
  destruct (resolveStage E platform w1) as [w2 [c|release']]; [discriminate|].
  unfold bind at 1 in Hfetch. unfold bind at 1.
  destruct (checkLocalVersion E _ _ _ _ w2) as [w3 [c|[]]]; [discriminate|].
  unfold bind at 1 in Hfetch. unfold bind at 1.
  destruct (checkDownloadDir E _ w3) as [w3' [c|[]]]; [discriminate|].
  unfold bind at 1 in Hfetch. unfold bind at 1.
  destruct (downloadStage E _ release' w3') as [w4' [c|ap]]; [discriminate|].
  unfold ret in Hfetch. injection Hfetch as -> -> ->. reflexivity.
Qed.

Lemma finish_main (inv : Invocation) (w w' : World) (code : Z) :
  mainBody E inv w = (w', inl code) -> main E inv w = (w', code).
Proof. intros H. unfold main. now rewrite H. Qed.

(** A download that succeeds has put a regular file at the destination. *)
Lemma storeBody_placed (filepath partialPath : string) (startOffset : Z)
    (resp : Http.Response) (w w' : World) :
  storeBody E filepath partialPath startOffset resp w = (w', None) ->
  exists perm data, fs w' !! resolve (cwd E) filepath = Some (File perm data).
Proof.
  unfold storeBody.
  destruct (if 0 <? startOffset then _ else _) as [e|f]; [discriminate|].
  destruct (negb (Http.BodyComplete resp)); [discriminate|].
  set (f1 := write_append (cwd E) partialPath (Http.Body resp) f).
  unfold Rename.
  destruct (lookup_path f1 (resolve (cwd E) filepath)) as [e|[p|p d]] eqn:Hnew.
  - destruct (lookup_path f1 (resolve (cwd E) partialPath)) as [e'|[p'|p' d']];
      try discriminate.
    destruct e; destruct (resolve (cwd E) filepath) eqn:Hr; try discriminate;
      destruct (lookup_path f1 (parent _)) as [e'|[q|q d0]]; try discriminate;
      intros [= <-]; cbn [set_fs fs]; rewrite lookup_insert_eq; eauto.
  - destruct (lookup_path f1 (resolve (cwd E) partialPath)); discriminate.
  - destruct (lookup_path f1 (resolve (cwd E) partialPath)) as [e'|[p'|p' d']];
      try discriminate.
    destruct (resolve (cwd E) filepath) eqn:Hr; try discriminate.
    destruct (lookup_path f1 (parent _)) as [e'|[q|q d0]]; try discriminate.
    intros [= <-]. cbn [set_fs fs]. rewrite lookup_insert_eq. eauto.
Qed.

Lemma downloadFile_placed (url filepath : string) (w w' : World) :
  downloadFile E url filepath w = (w', None) ->
  exists perm data, fs w' !! resolve (cwd E) filepath = Some (File perm data).
Proof.
  unfold downloadFile.
  destruct (match Stat (cwd E) (fs w) (filepath +:+ ".partial") with
            | inl _ => _ | inr _ => _ end) as [startOffset w0].
  destruct (negb (url_ok E url)); [discriminate|].
  destruct (Do E _ w0) as [w1 [resp|]]; [|discriminate].
  destruct (if _ && _ then _ else _) as [w2 [e|[off resp2]]]; [discriminate|].
  destruct (_ && _); [discriminate|].
  apply storeBody_placed.
Qed.

End PipelineFacts.

Section VerificationClaim.
Variable E : Env.
Import Fs.

(** C2, amended. A download that succeeds has put the file at its final
    path, whatever its digest: the partial file is renamed before anything
    is verified. The orchestrator then computes the digest of the file at
    the archive path: only when it equals the digest of the release
    descriptor does the run go on to replace the installation; otherwise it
    ends there with status 1, the file still at the archive path. *)
Theorem verification_gates_installation
    (inv : Invocation) (w w4 : World) (home platform : string)
    (release : ReleaseInfo) (archivePath : string) :
  let checking := print (MsgCheckingIntegrity archivePath) w4 in
  homeDir inv = Some home ->
  selectPlatform inv = Some platform ->
  fetchStages E inv home platform w = (w4, inr (release, archivePath)) ->
  (forall url filepath w0 w0',
      downloadFile E url filepath w0 = (w0', None) ->
      exists perm data, fs w0' !! resolve (cwd E) filepath = Some (File perm data))
  /\ match Stat (cwd E) (fs w4) archivePath with
     | inr (File _ data) =>
         if String.eqb (Sha256.Sum256Hex data) (SHA256Hash release)
         then mainBody E inv w =
              installStages E inv home platform release archivePath (print MsgOK checking)
         else main E inv w =
              (print (MsgSHA256Mismatch (SHA256Hash release) (Sha256.Sum256Hex data))
                 checking, 1)
     | _ => main E inv w = (print MsgErrorSHA256 checking, 1)
     end.
Proof.
  intros checking Hhome Hplat Hfetch.
  split; [intros url filepath w0 w0'; apply downloadFile_placed|].
  pose proof (mainBody_fetched E inv w w4 home platform release archivePath
                Hhome Hplat Hfetch) as Hmain.
  unfold bind at 1 in Hmain. unfold verifyStage in Hmain. fold checking in Hmain.
  destruct (Stat (cwd E) (fs w4) archivePath) as [e|[perm|perm data]] eqn:Hstat.
  - apply finish_main. rewrite Hmain.
    unfold calculateSHA256. change (fs checking) with (fs w4). now rewrite Hstat.
  - apply finish_main. rewrite Hmain.
    unfold calculateSHA256. change (fs checking) with (fs w4). now rewrite Hstat.
  - rewrite (calculateSHA256_file E archivePath checking perm data Hstat) in Hmain.
    destruct (String.eqb _ _); cbn [negb] in Hmain; [exact Hmain|].
    apply finish_main. exact Hmain.
Qed.

End VerificationClaim.

(** C2 fails on the code as it is stated: a server that delivers other
    bytes than the ones the release descriptor promises. The run ends with
    status 1 at the verification, and the file it has downloaded is at the
    archive path, where there was none before, with a digest that is not
    the expected one; a second run finds it there, skips the download and
    fails the same way. *)
Lemma unverified_archive_counterexample :
  let E := Demo.env (Demo.serving "TAMPERED") in
  let archive := "/home/u/Downloads/windsurf-1.5.0.tar.gz" in
  let first := main E (Demo.invocation false true "") (Demo.start Demo.home_fs) in
  let second := main E (Demo.invocation false true "") (Demo.start (fs (fst first))) in
  Fs.Stat (cwd E) Demo.home_fs archive = inl Fs.ENOENT
  /\ snd first = 1
  /\ Fs.ReadFile (cwd E) (fs (fst first)) archive = inr "TAMPERED"
  /\ Sha256.Sum256Hex "TAMPERED" <> SHA256Hash Demo.release
  /\ In MsgDownloadSkipped (out (fst second))
  /\ snd second = 1.
Proof.
  cbv zeta.
  split; [reflexivity|].
  split; [vm_compute; reflexivity|].
  split; [vm_compute; reflexivity|].
  split; [vm_compute; discriminate|].
  split; [vm_compute; tauto|].
  vm_compute. reflexivity.
Qed.

(** The world of the demo run after its download from the tampering server. *)
Definition tampered_world : World :=
  mkWorld
    (<[["home"; "u"; "Downloads"; "windsurf-1.5.0.tar.gz"] := Fs.File 420 "TAMPERED"]>
       Demo.home_fs)
    [releaseRequest "linux-x64"; Http.mkRequest (URL Demo.release) None]
    [MsgSelectedPlatform "linux-x64"; MsgFoundVersion "1.5.0";
     MsgDownloading "1.5.0" "/home/u/Downloads"].

Lemma verification_gates_installation_witness :
  main (Demo.env (Demo.serving "TAMPERED")) (Demo.invocation false true "")
       (Demo.start Demo.home_fs) =
  (print (MsgSHA256Mismatch (SHA256Hash Demo.release) (Sha256.Sum256Hex "TAMPERED"))
     (print (MsgCheckingIntegrity "/home/u/Downloads/windsurf-1.5.0.tar.gz")
        tampered_world), 1).
Proof.
  assert (Hplat : selectPlatform (Demo.invocation false true "") = Some "linux-x64")
    by (vm_compute; reflexivity).
  assert (Hfetch : fetchStages (Demo.env (Demo.serving "TAMPERED"))
                     (Demo.invocation false true "") "/home/u" "linux-x64"
                     (Demo.start Demo.home_fs) =
                   (tampered_world,
                    inr (Demo.release, "/home/u/Downloads/windsurf-1.5.0.tar.gz")))
    by (vm_compute; reflexivity).
  assert (Hstat : Fs.Stat (cwd (Demo.env (Demo.serving "TAMPERED"))) (fs tampered_world)
                    "/home/u/Downloads/windsurf-1.5.0.tar.gz" =
                  inr (Fs.File 420 "TAMPERED"))
    by (vm_compute; reflexivity).
  assert (Hdigest : String.eqb (Sha256.Sum256Hex "TAMPERED") (SHA256Hash Demo.release)
                    = false)
    by (vm_compute; reflexivity).
  pose proof (verification_gates_installation
                      (Demo.env (Demo.serving "TAMPERED"))
                      (Demo.invocation false true "") (Demo.start Demo.home_fs)
                      tampered_world "/home/u" "linux-x64" Demo.release
                      "/home/u/Downloads/windsurf-1.5.0.tar.gz") as H.
  cbv zeta in H.
  specialize (H eq_refl).
  specialize (H Hplat).
  specialize (H Hfetch).
  destruct H as [_ H].
  rewrite Hstat in H.
  rewrite Hdigest in H.
  exact H.
Defined.

Section ReplacementClaim.
Variable E : Env.
Import Fs.

Lemma remove_tree_below (root p : list string) (f : FS) :
  root `prefix_of` p -> remove_tree root f !! p = None.
Proof.
  intros Hp. unfold remove_tree. apply map_lookup_filter_None. right.
  intros x _ Hn. apply Hn. exact Hp.
Qed.

Lemma remove_tree_outside (root p : list string) (f : FS) :
  ~ root `prefix_of` p -> remove_tree root f !! p = f !! p.
Proof.
  intros Hp. unfold remove_tree. rewrite map_lookup_filter.
  destruct (f !! p) as [n|]; [|reflexivity]. simpl.
  rewrite option_guard_True; [reflexivity|exact Hp].
Qed.

(** [MkdirAll] only ever adds nodes on the way to its path. *)
Lemma mkdirAll_other (perm : Z) (seen rest : list string) (f f' : FS) (p : list string) :
  mkdirAll (umask E) perm seen rest f = inr f' ->
  ~ p `prefix_of` (seen ++ rest) ->
  f' !! p = f !! p.
Proof.
  revert seen f. induction rest as [|c rest IH]; intros seen f Hm Hp.
  - simpl in Hm. now injection Hm as <-.
  - simpl in Hm. replace (seen ++ c :: rest) with ((seen ++ [c]) ++ rest) in Hp
      by (rewrite <- app_assoc; reflexivity).
    destruct (node_at f (seen ++ [c])) as [[q|q d]|]; [eauto|discriminate|].
    rewrite (IH _ _ Hm Hp). apply lookup_insert_ne.
    intros <-. apply Hp. now apply prefix_app_r.
Qed.

Lemma RemoveAll_existing (path : string) (f f' : FS) (node : Node) :
  Stat (cwd E) f path = inr node ->
  RemoveAll (cwd E) path f = inr f' ->
  f' = remove_tree (resolve (cwd E) path) f.
Proof.
  intros Hstat. apply Stat_file_inv in Hstat as [Hne Hl].
  unfold RemoveAll. rewrite Hne, Hl.
  destruct (endsWithDot path); [discriminate|]. now intros [= <-].
Qed.

(** The stages of [main] up to and including the verification. *)
Definition planStages (inv : Invocation) (home platform : string)
  : Prog (ReleaseInfo * string) :=
  ctx <- fetchStages E inv home platform ;;
  verifyStage E (snd ctx) (fst ctx) ;;;
  ret ctx.

Lemma mainBody_planned (inv : Invocation) (w w5 : World) (home platform : string)
    (release : ReleaseInfo) (archivePath : string) :
  homeDir inv = Some home ->
  selectPlatform inv = Some platform ->
  planStages inv home platform w = (w5, inr (release, archivePath)) ->
  mainBody E inv w = installStages E inv home platform release archivePath w5.
Proof.
  intros Hhome Hplat Hplan. unfold planStages in Hplan.
  unfold bind at 1 in Hplan.
  destruct (fetchStages E inv home platform w) as [w4 [c|[release' ap]]] eqn:Hfetch;
    [discriminate|].
  rewrite (mainBody_fetched E inv w w4 home platform release' ap Hhome Hplat Hfetch).
  cbn [fst snd] in Hplan. unfold bind at 1 in Hplan. unfold bind at 1.
  destruct (verifyStage E ap release' w4) as [w5' [c|[]]]; [discriminate|].
  unfold ret in Hplan. now injection Hplan as -> -> ->.
Qed.

(** C8. In a run that has reached the replacement with the installation
    root in place: when the user is asked and does not answer yes, the run
    ends with status 1 and nothing but the two messages has changed; only
    with [--yes] or after a yes is the root removed, and then fully: the
    extraction starts in a world where nothing is left below the root; a
    removal that fails ends the run with the file system untouched. *)
Theorem replacement_needs_consent
    (inv : Invocation) (w w5 : World) (home platform : string)
    (release : ReleaseInfo) (archivePath : string) (node : Node) :
  let installPath := installPathOf inv home in
  let versionMarker := Filepath.Join installPath VersionMarker in
  let root := resolve (cwd E) installPath in
  homeDir inv = Some home ->
  selectPlatform inv = Some platform ->
  planStages inv home platform w = (w5, inr (release, archivePath)) ->
  Stat (cwd E) (fs w5) installPath = inr node ->
  (yes inv = false -> declined (response inv) = true ->
     main E inv w =
     (print MsgAborted (print (MsgRemovingAreYouSure installPath) w5), 1))
  /\ (yes inv = true \/ declined (response inv) = false ->
      forall f, RemoveAll (cwd E) installPath (fs w5) = inr f ->
      exists w6,
        mainBody E inv w =
          installStage E platform archivePath installPath versionMarker release w6
        /\ sent w6 = sent w5
        /\ forall p, root `prefix_of` p -> p <> root -> fs w6 !! p = None)
  /\ (yes inv = true \/ declined (response inv) = false ->
      forall e, RemoveAll (cwd E) installPath (fs w5) = inl e ->
      snd (main E inv w) = 1 /\ fs (fst (main E inv w)) = fs w5).
Proof.
  intros installPath versionMarker root Hhome Hplat Hplan Hstat.
  pose proof (mainBody_planned inv w w5 home platform release archivePath
                Hhome Hplat Hplan) as Hmain.
  unfold installStages in Hmain. fold installPath versionMarker in Hmain.
  unfold bind at 1, replaceStage in Hmain.
  unfold bind at 1 in Hmain. unfold bind at 1 in Hmain.
  rewrite Hstat in Hmain. cbn [IsNotExist negb] in Hmain.
  split; [|split].
  - intros Hyes Hdecl. apply finish_main. rewrite Hmain, Hyes, Hdecl. reflexivity.
  - intros Hconsent f Hrm.
    pose proof (RemoveAll_existing installPath (fs w5) f node Hstat Hrm) as Hf.
    assert (Hbelow : forall f', (f' = f \/ MkdirAll (cwd E) (umask E) installPath 493 f = inr f') ->
              forall p, root `prefix_of` p -> p <> root -> f' !! p = None).
    { intros f' [->|Hmk] p Hp Hne.
      - rewrite Hf. now apply remove_tree_below.
      - unfold MkdirAll in Hmk. destruct (String.eqb installPath ""); [discriminate|].
        rewrite (mkdirAll_other _ _ _ _ _ p Hmk).
        + rewrite Hf. now apply remove_tree_below.
        + simpl. intros Hq. apply Hne. symmetry.
          apply prefix_length_eq; [exact Hp|]. now apply prefix_length. }
    assert (Hgo : forall w', fs w' = fs w5 -> sent w' = sent w5 ->
              exists w6,
                (let w1 := set_fs f w' in
                 match MkdirAll (cwd E) (umask E) installPath 493 (fs w1) with
                 | inl _ => ret tt w1
                 | inr f0 => ret tt (set_fs f0 w1)
                 end) = (w6, inr tt)
                /\ sent w6 = sent w5
                /\ forall p, root `prefix_of` p -> p <> root -> fs w6 !! p = None).
    { intros w' Hfs Hsent. cbn [set_fs fs].
      destruct (MkdirAll (cwd E) (umask E) installPath 493 f) as [e|f0] eqn:Hmk.
      - eexists. split; [reflexivity|]. split; [exact Hsent|].
        apply Hbelow. now left.
      - eexists. split; [reflexivity|]. split; [exact Hsent|].
        apply Hbelow. now right. }
    destruct (yes inv) eqn:Hyes.
    + unfold Printf in Hmain. cbn [print fs] in Hmain. rewrite Hrm in Hmain.
      unfold ret at 1 in Hmain.
      destruct (Hgo (print (MsgRemoving installPath) w5) eq_refl eq_refl)
        as (w6 & Hw6 & Hs & Hb).
      cbv zeta in Hw6. unfold print in Hw6, Hmain. rewrite Hw6 in Hmain.
      exists w6. auto.
    + destruct Hconsent as [|Hdecl]; [discriminate|].
      unfold bind at 1 in Hmain. unfold Printf at 1 in Hmain.
      rewrite Hdecl in Hmain. unfold ret at 1 in Hmain.
      cbn [print fs] in Hmain. rewrite Hrm in Hmain. unfold ret at 1 in Hmain.
      destruct (Hgo (print (MsgRemovingAreYouSure installPath) w5) eq_refl eq_refl)
        as (w6 & Hw6 & Hs & Hb).
      cbv zeta in Hw6. unfold print in Hw6, Hmain. rewrite Hw6 in Hmain.
      exists w6. auto.
  - intros Hconsent e Hrm.
    destruct (yes inv) eqn:Hyes.
    + unfold Printf at 1 in Hmain. cbn [print fs] in Hmain. rewrite Hrm in Hmain.
      unfold main. rewrite Hmain. split; reflexivity.
    + destruct Hconsent as [|Hdecl]; [discriminate|].
      unfold bind at 1 in Hmain. unfold Printf at 1 in Hmain.
      rewrite Hdecl in Hmain. unfold ret at 1 in Hmain.
      cbn [print fs] in Hmain. rewrite Hrm in Hmain.
      unfold main. rewrite Hmain. split; reflexivity.
Qed.

End ReplacementClaim.

(** A forced update over the installation of the demo setting, the archive
    already downloaded, and a user who answers no. *)
Definition reinstall_fs : Fs.FS :=
  <[["home"; "u"; "Downloads"; "windsurf-1.5.0.tar.gz"] := Fs.File 420 Demo.payload]>
    installed_fs.

Definition asked_world : World :=
  mkWorld reinstall_fs [releaseRequest "linux-x64"]
    [MsgSelectedPlatform "linux-x64"; MsgFoundVersion "1.5.0"; MsgDownloadSkipped;
     MsgCheckingIntegrity "/home/u/Downloads/windsurf-1.5.0.tar.gz"; MsgOK].

Lemma replacement_needs_consent_witness :
  main (Demo.env (Demo.serving Demo.payload)) (Demo.invocation true false "no")
       (Demo.start reinstall_fs) =
  (print MsgAborted (print (MsgRemovingAreYouSure "/home/u/apps/windsurf") asked_world), 1).
Proof.
  assert (Hplat : selectPlatform (Demo.invocation true false "no") = Some "linux-x64")
    by (vm_compute; reflexivity).
  assert (Hplan : planStages (Demo.env (Demo.serving Demo.payload))
                    (Demo.invocation true false "no") "/home/u" "linux-x64"
                    (Demo.start reinstall_fs) =
                  (asked_world,
                   inr (Demo.release, "/home/u/Downloads/windsurf-1.5.0.tar.gz")))
    by (vm_compute; reflexivity).
  assert (Hstat : Fs.Stat (cwd (Demo.env (Demo.serving Demo.payload))) (fs asked_world)
                    "/home/u/apps/windsurf" = inr (Fs.Dir 493))
    by (vm_compute; reflexivity).
  pose proof (replacement_needs_consent (Demo.env (Demo.serving Demo.payload))
                (Demo.invocation true false "no") (Demo.start reinstall_fs)
                asked_world "/home/u" "linux-x64" Demo.release
                "/home/u/Downloads/windsurf-1.5.0.tar.gz" (Fs.Dir 493)) as H.
  cbv zeta in H.
  specialize (H eq_refl).
  specialize (H Hplat).
  specialize (H Hplan).
  specialize (H Hstat).
  destruct H as [H _].
  exact (H eq_refl eq_refl).
Defined.

(** * Further properties of the code *)

(** ** [compareVersions] as an order *)

Section VersionOrder.
Import GoStrings Strconv Version VersionSpec.

Lemma lexCompare_flip (a b : list Z) : lexCompare b a = - lexCompare a b.
Proof.
  revert b. induction a as [|x a IH]; intros [|y b]; try reflexivity.
  simpl. destruct (Z.ltb_spec x y), (Z.ltb_spec y x); try reflexivity; try lia.
  apply IH.
Qed.

Lemma lexCompare_range (a b : list Z) :
  lexCompare a b = -1 \/ lexCompare a b = 0 \/ lexCompare a b = 1.
Proof.
  revert b. induction a as [|x a IH]; intros [|y b]; simpl; auto.
  destruct (x <? y); auto. destruct (y <? x); auto.
Qed.

(** Zeros appended to both sides do not matter. *)
Lemma lexCompare_more_zeros (a b : list Z) (k : nat) :
  length a = length b ->
  lexCompare (a ++ repeat 0 k) (b ++ repeat 0 k) = lexCompare a b.
Proof.
  revert b. induction a as [|x a IH]; intros [|y b] Hlen; try discriminate Hlen.
  - simpl. induction k as [|k IHk]; [reflexivity|]. simpl. exact IHk.
  - simpl. destruct (x <? y); [reflexivity|]. destruct (y <? x); [reflexivity|].
    apply IH. now injection Hlen.
Qed.

Lemma pad_zeros_more (n k : nat) (l : list Z) :
  (length l <= n)%nat -> pad_zeros (n + k) l = pad_zeros n l ++ repeat 0 k.
Proof.
  intros H. unfold pad_zeros. rewrite <- app_assoc, <- repeat_app.
  do 2 f_equal. lia.
Qed.

(** The comparison may pad to any common length. *)
Lemma compareSpec_padded (v1 v2 : string) (n : nat) :
  (length (fields v1) <= n)%nat -> (length (fields v2) <= n)%nat ->
  compareSpec v1 v2 = lexCompare (pad_zeros n (fields v1)) (pad_zeros n (fields v2)).
Proof.
  intros H1 H2. unfold compareSpec.
  set (m := Nat.max (length (fields v1)) (length (fields v2))).
  replace n with (m + (n - m))%nat by lia.
  rewrite !pad_zeros_more by lia.
  rewrite lexCompare_more_zeros; [reflexivity|].
  rewrite !length_pad_zeros; lia.
Qed.

(** X1. Swapping the arguments of [compareVersions] negates the result. *)
Theorem compareVersions_antisymmetric (v1 v2 : string) :
  compareVersions v2 v1 = - compareVersions v1 v2.
Proof.
  rewrite !compareVersions_refines. unfold compareSpec.
  rewrite (Nat.max_comm (length (fields v2))). apply lexCompare_flip.
Qed.

(** X2. [compareVersions] returns -1, 0 or 1, and 0 for a version compared
    with itself, whatever the string. *)
Theorem compareVersions_sign (v1 v2 : string) :
  (compareVersions v1 v2 = -1 \/ compareVersions v1 v2 = 0 \/ compareVersions v1 v2 = 1)
  /\ compareVersions v1 v1 = 0.
Proof.
  split.
  - rewrite compareVersions_refines. apply lexCompare_range.
  - pose proof (compareVersions_antisymmetric v1 v1). lia.
Qed.

Lemma lexCompare_eq (a b : list Z) :
  length a = length b -> lexCompare a b = 0 -> a = b.
Proof.
  revert b. induction a as [|x a IH]; intros [|y b] Hlen H; try discriminate Hlen;
    [reflexivity|].
  simpl in H. destruct (Z.ltb_spec x y); [discriminate|].
  destruct (Z.ltb_spec y x); [discriminate|].
  f_equal; [lia|]. apply IH; [now injection Hlen|exact H].
Qed.

Lemma lexCompare_refl (a : list Z) : lexCompare a a = 0.
Proof. pose proof (lexCompare_flip a a). lia. Qed.

Lemma lexCompare_trans (a b c : list Z) :
  length a = length b -> length b = length c ->
  lexCompare a b <= 0 -> lexCompare b c <= 0 -> lexCompare a c <= 0.
Proof.
  revert b c. induction a as [|x a IH]; intros [|y b] [|z c] Hab Hbc H1 H2;
    try discriminate Hab; try discriminate Hbc; [reflexivity|].
  simpl in *.
  destruct (Z.ltb_spec x y), (Z.ltb_spec y x), (Z.ltb_spec y z), (Z.ltb_spec z y),
    (Z.ltb_spec x z), (Z.ltb_spec z x); try lia.
  apply (IH b c); congruence.
Qed.

(** X3. [compareVersions] is transitive: if the first version is not newer
    than the second and the second not newer than the third, the first is
    not newer than the third. *)
Theorem compareVersions_transitive (v1 v2 v3 : string) :
  compareVersions v1 v2 <= 0 -> compareVersions v2 v3 <= 0 ->
  compareVersions v1 v3 <= 0.
Proof.
  rewrite !compareVersions_refines.
  set (n := Nat.max (length (fields v1)) (Nat.max (length (fields v2)) (length (fields v3)))).
  rewrite (compareSpec_padded v1 v2 n), (compareSpec_padded v2 v3 n),
    (compareSpec_padded v1 v3 n) by lia.
  apply lexCompare_trans; rewrite !length_pad_zeros; lia.
Qed.

Lemma compareVersions_transitive_witness :
  compareVersions "1.9" "1.10.1" <= 0.
Proof.
  apply (compareVersions_transitive "1.9" "1.10" "1.10.1").
  - vm_compute. discriminate.
  - vm_compute. discriminate.
Defined.

Lemma Split_append_field (v : string) (field : string) (sep : ascii) :
  Split (v +:+ String sep field) sep = Split v sep ++ Split field sep.
Proof.
  induction v as [|c v IH].
  - simpl. now rewrite Ascii.eqb_refl.
  - rewrite append_cons. simpl. destruct (Ascii.eqb c sep).
    + now rewrite IH.
    + rewrite IH. destruct (Split v sep) as [|h t] eqn:Hs; [|reflexivity].
      now apply Split_nonempty in Hs.
Qed.

(** X4. A trailing [.0] field does not change how a version compares:
    [compareVersions] of [v.0] and of [v] against any other version agree
    (so "1.2" and "1.2.0.0" are the same version to the updater). *)
Theorem compareVersions_trailing_zero (v other : string) :
  compareVersions (v +:+ ".0") other = compareVersions v other.
Proof.
  rewrite !compareVersions_refines.
  set (n := S (Nat.max (length (fields v)) (length (fields other)))).
  assert (Hf : fields (v +:+ ".0") = fields v ++ [0]).
  { unfold fields. rewrite (Split_append_field v "0" "."), map_app. reflexivity. }
  rewrite (compareSpec_padded (v +:+ ".0") other n), (compareSpec_padded v other n);
    rewrite ?Hf, ?length_app; simpl; try lia.
  f_equal. unfold pad_zeros. rewrite <- app_assoc, length_app. simpl.
  f_equal. replace (n - length (fields v))%nat with (S (n - (length (fields v) + 1)))
    by lia. reflexivity.
Qed.

End VersionOrder.

(** ** The file system model: what a change at one path leaves alone *)

Section FsFrame.
Import Fs.

(** A lookup only reads the nodes on the way to its path. *)
Lemma walk_agree (f g : FS) (seen rest : list string) :
  (forall q, q `prefix_of` (seen ++ rest) -> f !! q = g !! q) ->
  walk f seen rest = walk g seen rest.
Proof.
  revert seen. induction rest as [|c rest IH]; intros seen H.
  - simpl. assert (Hn : node_at f seen = node_at g seen).
    { unfold node_at. destruct seen; [reflexivity|]. apply H.
      rewrite app_nil_r. reflexivity. }
    now rewrite Hn.
  - simpl. assert (Hn : node_at f seen = node_at g seen).
    { unfold node_at. destruct seen; [reflexivity|]. apply H.
      now apply prefix_app_r. }
    rewrite Hn. destruct (node_at g seen) as [[p|p d]|]; try reflexivity.
    apply IH. intros q Hq. apply H. now rewrite <- app_assoc in Hq.
Qed.

Lemma lookup_path_agree (f g : FS) (p : list string) :
  (forall q, q `prefix_of` p -> f !! q = g !! q) ->
  lookup_path f p = lookup_path g p.
Proof. intros H. apply walk_agree. exact H. Qed.

Lemma lookup_path_insert_other (f : FS) (k p : list string) (n : Node) :
  ~ k `prefix_of` p -> lookup_path (<[k := n]> f) p = lookup_path f p.
Proof.
  intros H. apply lookup_path_agree. intros q Hq.
  apply lookup_insert_ne. intros ->. contradiction.
Qed.

Lemma lookup_path_delete_other (f : FS) (k p : list string) :
  ~ k `prefix_of` p -> lookup_path (delete k f) p = lookup_path f p.
Proof.
  intros H. apply lookup_path_agree. intros q Hq.
  apply lookup_delete_ne. intros ->. contradiction.
Qed.


Lemma snoc_not_prefix_of_sibling (dir : list string) (a b : string) :
  a <> b -> ~ (dir ++ [a]) `prefix_of` (dir ++ [b]).
Proof.
  intros Hne Hp. apply Hne.
  apply prefix_length_eq in Hp; [|rewrite !length_app; simpl; lia].
  apply app_inv_head in Hp. now injection Hp.
Qed.

Lemma snoc_not_prefix_of_parent (dir : list string) (a : string) :
  ~ (dir ++ [a]) `prefix_of` dir.
Proof. apply prefix_snoc_not. Qed.

End FsFrame.

(** ** [downloadFile] *)

Section DownloaderExtras.
Variable E : Env.
Import Fs.

Lemma open_write_frame (create trunc : bool) (path : string) (perm : Z) (f f' : FS)
    (p : list string) :
  open_write (cwd E) (umask E) create trunc path perm f = inr f' ->
  p <> resolve (cwd E) path -> f' !! p = f !! p.
Proof.
  unfold open_write. intros H Hp.
  destruct (String.eqb path ""); [discriminate|].
  destruct (lookup_path f (resolve (cwd E) path)) as [[]|[q|q d]]; try discriminate.
  - destruct (resolve (cwd E) path) eqn:Hr; [discriminate|]. rewrite <- Hr in *.
    destruct (lookup_path f (parent _)) as [e|[q|q d]]; try discriminate.
    destruct create; [|discriminate]. injection H as <-.
    now apply lookup_insert_ne.
  - destruct trunc; injection H as <-; [|reflexivity]. now apply lookup_insert_ne.
Qed.

Lemma write_append_frame (path bytes : string) (f : FS) (p : list string) :
  p <> resolve (cwd E) path -> write_append (cwd E) path bytes f !! p = f !! p.
Proof.
  intros Hp. unfold write_append.
  destruct (f !! resolve (cwd E) path) as [[q|q d]|]; try reflexivity.
  now apply lookup_insert_ne.
Qed.

Lemma Remove_frame (path : string) (f f' : FS) (p : list string) :
  Remove (cwd E) path f = inr f' -> p <> resolve (cwd E) path -> f' !! p = f !! p.
Proof.
  unfold Remove. intros H Hp.
  destruct (String.eqb path ""); [discriminate|].
  destruct (lookup_path f (resolve (cwd E) path)) as [e|[q|q d]]; try discriminate.
  - destruct (resolve (cwd E) path) eqn:Hr; [discriminate|]. rewrite <- Hr in *.
    destruct (has_children _ f); [discriminate|]. injection H as <-.
    now apply lookup_delete_ne.
  - injection H as <-. now apply lookup_delete_ne.
Qed.

Lemma Rename_frame (oldpath newpath : string) (f f' : FS) (p : list string) :
  Rename (cwd E) oldpath newpath f = inr f' ->
  p <> resolve (cwd E) oldpath -> p <> resolve (cwd E) newpath -> f' !! p = f !! p.
Proof.
  unfold Rename. intros H Ho Hn.
  assert (Hgo : forall m d,
    match lookup_path f (parent (resolve (cwd E) newpath)) with
    | inl e => inl e
    | inr (Dir _) =>
        inr (<[resolve (cwd E) newpath := File m d]> (delete (resolve (cwd E) oldpath) f))
    | inr (File _ _) => inl ENOTDIR
    end = inr f' -> f' !! p = f !! p).
  { intros m d Hm.
    destruct (lookup_path f (parent _)) as [e|[q|q d0]]; try discriminate.
    injection Hm as <-. rewrite lookup_insert_ne by congruence.
    now apply lookup_delete_ne. }
  destruct (lookup_path f (resolve (cwd E) newpath)) as [e|[q|q d]].
  - destruct (lookup_path f (resolve (cwd E) oldpath)) as [e'|[q'|q' d']];
      try discriminate.
    destruct e; destruct (resolve (cwd E) newpath) eqn:Hr; try discriminate;
      rewrite <- Hr in *; eauto.
  - destruct (lookup_path f (resolve (cwd E) oldpath)); discriminate.
  - destruct (lookup_path f (resolve (cwd E) oldpath)) as [e'|[q'|q' d']];
      try discriminate.
    destruct (resolve (cwd E) newpath) eqn:Hr; try discriminate.
    rewrite <- Hr in *. eauto.
Qed.

Lemma storeBody_frame (filepath partialPath : string) (startOffset : Z)
    (resp : Http.Response) (w : World) (p : list string) :
  p <> resolve (cwd E) filepath -> p <> resolve (cwd E) partialPath ->
  fs (fst (storeBody E filepath partialPath startOffset resp w)) !! p = fs w !! p.
Proof.
  intros Hf Hp. unfold storeBody.
  destruct (if 0 <? startOffset then _ else _) as [e|f] eqn:Hopen; [reflexivity|].
  assert (Hopened : f !! p = fs w !! p).
  { destruct (0 <? startOffset); eapply open_write_frame; eauto. }
  destruct (negb (Http.BodyComplete resp)).
  - cbn [fst set_fs fs]. now rewrite write_append_frame.
  - destruct (Rename _ _ _ _) as [e|f'] eqn:Hren; cbn [fst set_fs fs].
    + now rewrite write_append_frame.
    + rewrite (Rename_frame _ _ _ _ p Hren) by assumption.
      now rewrite write_append_frame.
Qed.

(** X5. Whatever the server answers, [downloadFile] changes the file system
    at no other path than the destination and its [.partial] companion. *)
Theorem downloadFile_frame (url filepath : string) (w : World) (p : list string) :
  p <> resolve (cwd E) filepath ->
  p <> resolve (cwd E) (filepath +:+ ".partial") ->
  fs (fst (downloadFile E url filepath w)) !! p = fs w !! p.
Proof.
  intros Hf Hp. unfold downloadFile.
  destruct (Stat (cwd E) (fs w) (filepath +:+ ".partial")) as [e|stat].
  - destruct (negb (url_ok E url)); [reflexivity|].
    unfold Do. cbn [fs sent out].
    destruct (server E (sent w) _) as [resp|]; [|reflexivity].
    rewrite Z.ltb_irrefl. cbn [andb].
    destruct (_ && _); [reflexivity|].
    now rewrite storeBody_frame.
  - destruct (negb (url_ok E url)); [reflexivity|].
    unfold Do. cbn [print fs sent out].
    destruct (server E (sent w) _) as [resp|]; [|reflexivity].
    destruct (_ && _).
    + destruct (Remove (cwd E) (filepath +:+ ".partial") (fs w)) as [e|f] eqn:Hrm;
        cbn [set_fs fs sent out].
      * destruct (server E _ _) as [resp2|]; [|reflexivity].
        destruct (_ && _); [reflexivity|]. now rewrite storeBody_frame.
      * destruct (server E _ _) as [resp2|];
          [|cbn [fst fs]; exact (Remove_frame _ _ _ p Hrm Hp)].
        destruct (_ && _); [cbn [fst fs]; exact (Remove_frame _ _ _ p Hrm Hp)|].
        rewrite storeBody_frame by assumption. cbn [fs].
        exact (Remove_frame _ _ _ p Hrm Hp).
    + destruct (_ && _); [reflexivity|]. now rewrite storeBody_frame.
Qed.

End DownloaderExtras.

Section DownloaderOutcomes.
Variable E : Env.
Import Fs.

Lemma storeBody_error_keeps (filepath partialPath : string) (startOffset : Z)
    (resp : Http.Response) (w : World) (err : Error) :
  resolve (cwd E) filepath <> resolve (cwd E) partialPath ->
  snd (storeBody E filepath partialPath startOffset resp w) = Some err ->
  fs (fst (storeBody E filepath partialPath startOffset resp w))
    !! resolve (cwd E) filepath = fs w !! resolve (cwd E) filepath.
Proof.
  intros Hne. unfold storeBody.
  destruct (if 0 <? startOffset then _ else _) as [e|f] eqn:Hopen; [reflexivity|].
  assert (Hopened : f !! resolve (cwd E) filepath = fs w !! resolve (cwd E) filepath).
  { destruct (0 <? startOffset); eapply open_write_frame; eauto. }
  destruct (negb (Http.BodyComplete resp)).
  - intros _. cbn [fst set_fs fs]. now rewrite write_append_frame.
  - destruct (Rename _ _ _ _) as [e|f'] eqn:Hren; cbn [fst snd set_fs fs].
    + intros _. now rewrite write_append_frame.
    + discriminate.
Qed.

(** X6. A download that fails, for whatever reason, leaves the destination
    path as it was: the file only ever appears there by the final rename. *)
Theorem downloadFile_error_keeps_destination
    (url filepath : string) (w : World) (err : Error) :
  resolve (cwd E) filepath <> resolve (cwd E) (filepath +:+ ".partial") ->
  snd (downloadFile E url filepath w) = Some err ->
  fs (fst (downloadFile E url filepath w)) !! resolve (cwd E) filepath
  = fs w !! resolve (cwd E) filepath.
Proof.
  intros Hne. unfold downloadFile.
  destruct (Stat (cwd E) (fs w) (filepath +:+ ".partial")) as [e|stat].
  - destruct (negb (url_ok E url)); [reflexivity|].
    unfold Do. cbn [fs sent out].
    destruct (server E (sent w) _) as [resp|]; [|reflexivity].
    rewrite Z.ltb_irrefl. cbn [andb].
    destruct (_ && _); [reflexivity|].
    intros H. now rewrite (storeBody_error_keeps _ _ _ _ _ err Hne H).
  - destruct (negb (url_ok E url)); [reflexivity|].
    unfold Do. cbn [print fs sent out].
    destruct (server E (sent w) _) as [resp|]; [|reflexivity].
    destruct (_ && _).
    + destruct (Remove (cwd E) (filepath +:+ ".partial") (fs w)) as [e|f] eqn:Hrm;
        cbn [set_fs fs sent out].
      * destruct (server E _ _) as [resp2|]; [|reflexivity].
        destruct (_ && _); [reflexivity|].
        intros H. now rewrite (storeBody_error_keeps _ _ _ _ _ err Hne H).
      * destruct (server E _ _) as [resp2|];
          [|intros _; cbn [fst fs]; exact (Remove_frame E _ _ _ _ Hrm Hne)].
        destruct (_ && _);
          [intros _; cbn [fst fs]; exact (Remove_frame E _ _ _ _ Hrm Hne)|].
        intros H. rewrite (storeBody_error_keeps _ _ _ _ _ err Hne H). cbn [fs].
        exact (Remove_frame E _ _ _ _ Hrm Hne).
    + destruct (_ && _); [reflexivity|].
      intros H. now rewrite (storeBody_error_keeps _ _ _ _ _ err Hne H).
Qed.

(** The setting of a download as [main] starts it: the destination and its
    [.partial] companion are two names in one existing directory. *)
Record siblings (f : FS) (filepath : string) (dir : list string) (name pname : string)
  : Prop := {
  sib_dest : resolve (cwd E) filepath = dir ++ [name];
  sib_partial : resolve (cwd E) (filepath +:+ ".partial") = dir ++ [pname];
  sib_differ : name <> pname;
  sib_dir : exists perm, lookup_path f dir = inr (Dir perm);
  sib_free : forall perm, f !! (dir ++ [name]) <> Some (Dir perm)
}.

Lemma match_snoc {A B} (l : list A) (x : A) (a b : B) :
  match l ++ [x] with [] => a | _ :: _ => b end = b.
Proof. destruct l; reflexivity. Qed.

Lemma partial_path_nonempty (filepath : string) :
  String.eqb (filepath +:+ ".partial") "" = false.
Proof. destruct filepath; reflexivity. Qed.

Lemma Rename_sibling (f : FS) (filepath : string) (dir : list string)
    (name pname : string) (m : Z) (data : string) :
  siblings f filepath dir name pname ->
  f !! (dir ++ [pname]) = Some (File m data) ->
  Rename (cwd E) (filepath +:+ ".partial") filepath f =
  inr (<[dir ++ [name] := File m data]> (delete (dir ++ [pname]) f)).
Proof.
  intros [Hd Hp Hne [dperm Hdir] Hfree] Hold.
  unfold Rename. rewrite Hd, Hp, !lookup_path_snoc, Hdir, Hold, parent_snoc, Hdir.
  destruct (f !! (dir ++ [name])) as [[q|q d]|] eqn:Hn.
  - now destruct (Hfree q).
  - destruct (dir ++ [name]) eqn:Hdn; [now apply app_eq_nil in Hdn as [_ ?]|].
    reflexivity.
  - destruct (dir ++ [name]) eqn:Hdn; [now apply app_eq_nil in Hdn as [_ ?]|].
    reflexivity.
Qed.

Lemma siblings_write (f : FS) (filepath : string) (dir : list string)
    (name pname : string) (n : Node) :
  siblings f filepath dir name pname ->
  siblings (<[dir ++ [pname] := n]> f) filepath dir name pname.
Proof.
  intros [Hd Hp Hne [dperm Hdir] Hfree].
  split; try assumption.
  - exists dperm. rewrite lookup_path_insert_other; [exact Hdir|].
    apply prefix_snoc_not.
  - intros perm. rewrite lookup_insert_ne; [apply Hfree|].
    intros Heq. apply app_inv_head in Heq. injection Heq as Heq. now apply Hne.
Qed.

(** The end of a transfer whose partial file holds [old] (the empty string
    for a file just created): the body is appended and the file renamed. *)
Lemma storeBody_sibling (f : FS) (filepath : string) (dir : list string)
    (name pname : string) (m : Z) (old : string) (resp : Http.Response) (w : World) :
  siblings f filepath dir name pname ->
  write_append (cwd E) (filepath +:+ ".partial") (Http.Body resp) f
    = <[dir ++ [pname] := File m (old +:+ Http.Body resp)]> f ->
  Http.BodyComplete resp = true ->
  (let f1 := write_append (cwd E) (filepath +:+ ".partial") (Http.Body resp) f in
   match Rename (cwd E) (filepath +:+ ".partial") filepath f1 with
   | inl e => (set_fs f1 w, Some (RenameError e))
   | inr f' => (set_fs f' w, None)
   end) =
  (set_fs (<[dir ++ [name] := File m (old +:+ Http.Body resp)]> (delete (dir ++ [pname]) f)) w,
   None).
Proof.
  intros Hs Hw Hc. cbv zeta. rewrite Hw.
  rewrite (Rename_sibling _ filepath dir name pname m (old +:+ Http.Body resp)).
  - now rewrite delete_insert_eq.
  - now apply siblings_write.
  - apply lookup_insert_eq.
Qed.

(** X7. A fresh download: no partial file, and the server answers the plain
    request with 200 (or 206) and a body that arrives whole. Then exactly
    one request without a Range header has been sent, and the destination
    is a file with mode 0666 less the umask that holds exactly the body;
    no partial file is left. *)
Theorem downloadFile_fresh
    (url filepath : string) (w : World) (dir : list string) (name pname : string)
    (resp : Http.Response) :
  siblings (fs w) filepath dir name pname ->
  fs w !! (dir ++ [pname]) = None ->
  url_ok E url = true ->
  server E (sent w) (Http.mkRequest url None) = Some resp ->
  Http.StatusCode resp = Http.StatusOK \/ Http.StatusCode resp = Http.StatusPartialContent ->
  Http.BodyComplete resp = true ->
  downloadFile E url filepath w =
  (mkWorld (<[dir ++ [name] := File (apply_umask (umask E) 438) (Http.Body resp)]> (fs w))
           (sent w ++ [Http.mkRequest url None]) (out w), None).
Proof.
  intros Hs Hnone Hurl Hsrv Hstatus Hc.
  pose proof Hs as [Hd Hp Hne [dperm Hdir] Hfree].
  unfold downloadFile, Stat. rewrite partial_path_nonempty, Hp, lookup_path_snoc, Hdir, Hnone.
  rewrite Hurl. cbn [negb]. rewrite Z.ltb_irrefl. unfold Do. rewrite Hsrv. cbn [andb].
  assert (Hst : negb (Http.StatusCode resp =? Http.StatusOK)
                && negb (Http.StatusCode resp =? Http.StatusPartialContent) = false).
  { destruct Hstatus as [-> | ->]; reflexivity. }
  rewrite Hst. unfold storeBody. rewrite Z.ltb_irrefl. cbn [fs].
  unfold open_write. rewrite partial_path_nonempty, Hp, lookup_path_snoc, Hdir, Hnone.
  rewrite match_snoc, parent_snoc, Hdir. rewrite Hc. cbn [negb].
  set (f0 := <[dir ++ [pname] := File (apply_umask (umask E) (syscallMode 438)) ""]> (fs w)).
  assert (Hs0 : siblings f0 filepath dir name pname) by now apply siblings_write.
  pose proof (storeBody_sibling f0 filepath dir name pname
                (apply_umask (umask E) (syscallMode 438)) "" resp
                (mkWorld (fs w) (sent w ++ [Http.mkRequest url None]) (out w)) Hs0) as Hgo.
  cbv zeta in Hgo. rewrite Hgo; [| |exact Hc].
  - unfold f0, set_fs. cbn [fs sent out].
    rewrite delete_insert_eq, delete_id by exact Hnone. reflexivity.
  - unfold write_append, f0. rewrite Hp, lookup_insert_eq, insert_insert_eq. reflexivity.
Qed.

Lemma length_take_bytes (n : nat) (s : string) :
  (n <= String.length s)%nat -> String.length (take_bytes n s) = n.
Proof.
  revert s. induction n as [|n IH]; intros s H; [destruct s; reflexivity|].
  destruct s as [|c s]; simpl in *; [lia|]. rewrite IH; lia.
Qed.

(** The start of a resumed transfer: a partial file with [old] in it, a
    range request answered with 206. *)
Lemma downloadFile_resuming
    (url filepath : string) (w : World) (dir : list string) (name pname : string)
    (perm : Z) (old : string) (resp : Http.Response) :
  let size := Z.of_nat (String.length old) in
  let ranged := Http.mkRequest url (Some ("bytes=" +:+ pretty size +:+ "-")) in
  siblings (fs w) filepath dir name pname ->
  fs w !! (dir ++ [pname]) = Some (File perm old) ->
  old <> "" ->
  url_ok E url = true ->
  server E (sent w) ranged = Some resp ->
  Http.StatusCode resp = Http.StatusPartialContent ->
  downloadFile E url filepath w =
  (let w1 := mkWorld (fs w) (sent w ++ [ranged]) (out w ++ [MsgResuming size]) in
   let f1 := <[dir ++ [pname] := File perm (old +:+ Http.Body resp)]> (fs w) in
   if Http.BodyComplete resp
   then match Rename (cwd E) (filepath +:+ ".partial") filepath f1 with
        | inl e => (set_fs f1 w1, Some (RenameError e))
        | inr f' => (set_fs f' w1, None)
        end
   else (set_fs f1 w1, Some CopyError)).
Proof.
  intros size ranged Hs Hold Hne Hurl Hsrv Hstatus.
  pose proof Hs as [Hd Hp Hdiff [dperm Hdir] Hfree].
  assert (Hpos : (0 <? size) = true).
  { apply Z.ltb_lt. subst size. destruct old; [contradiction|simpl; lia]. }
  assert (Hlook : lookup_path (fs w) (resolve (cwd E) (filepath +:+ ".partial"))
                  = inr (File perm old)).
  { now rewrite Hp, lookup_path_snoc, Hdir, Hold. }
  unfold downloadFile, Stat. rewrite partial_path_nonempty, Hlook.
  cbn [node_size]. fold size. rewrite Hpos, Hurl. cbn [negb]. fold ranged.
  assert (H206 : (Http.StatusCode resp =? Http.StatusPartialContent) = true)
    by now rewrite Hstatus.
  assert (H200 : (Http.StatusCode resp =? Http.StatusOK) = false)
    by now rewrite Hstatus.
  unfold Do. cbn [print fs sent out]. rewrite Hsrv. cbv beta iota zeta.
  rewrite ?Hpos, ?H206, ?H200. cbn [negb andb]. cbv beta iota.
  rewrite ?Hpos, ?H206, ?H200. cbn [negb andb].
  unfold storeBody. rewrite Hpos. cbn [fs].
  unfold open_write. rewrite partial_path_nonempty, Hlook.
  unfold write_append. rewrite Hp, Hold.
  destruct (Http.BodyComplete resp); reflexivity.
Qed.

(** X8. Resuming is worth the same as starting over: when the partial file
    holds the first [K] bytes of a resource and the server answers the
    range request for the rest with 206, the destination ends up holding
    the whole resource, byte for byte, and the partial file is gone. *)
Theorem downloadFile_resume_completes
    (url filepath : string) (w : World) (dir : list string) (name pname : string)
    (perm : Z) (resource : string) (K : nat) (resp : Http.Response) :
  let ranged := Http.mkRequest url (Some ("bytes=" +:+ pretty (Z.of_nat K) +:+ "-")) in
  siblings (fs w) filepath dir name pname ->
  (0 < K <= String.length resource)%nat ->
  fs w !! (dir ++ [pname]) = Some (File perm (take_bytes K resource)) ->
  url_ok E url = true ->
  server E (sent w) ranged = Some resp ->
  Http.StatusCode resp = Http.StatusPartialContent ->
  Http.Body resp = GoStrings.drop_bytes K resource ->
  Http.BodyComplete resp = true ->
  downloadFile E url filepath w =
  (mkWorld (<[dir ++ [name] := File perm resource]> (delete (dir ++ [pname]) (fs w)))
           (sent w ++ [ranged]) (out w ++ [MsgResuming (Z.of_nat K)]), None).
Proof.
  intros ranged Hs HK Hold Hurl Hsrv Hstatus Hbody Hc.
  assert (Hlen : String.length (take_bytes K resource) = K)
    by (apply length_take_bytes; lia).
  pose proof (downloadFile_resuming url filepath w dir name pname perm
                (take_bytes K resource) resp Hs Hold) as H.
  cbv zeta in H. rewrite Hlen in H.
  rewrite H; try assumption.
  - rewrite Hc, Hbody, take_drop_bytes.
    rewrite (Rename_sibling _ filepath dir name pname perm resource).
    + now rewrite delete_insert_eq.
    + now apply siblings_write.
    + apply lookup_insert_eq.
  - intros Hempty. rewrite Hempty in Hlen. simpl in Hlen. lia.
Qed.

(** X9. A transfer that breaks off while resuming keeps what it has got:
    the bytes received are appended to the partial file, the destination
    is not touched, and the error is returned, so that the next run asks
    for the bytes after them. *)
Theorem downloadFile_interrupted
    (url filepath : string) (w : World) (dir : list string) (name pname : string)
    (perm : Z) (old : string) (resp : Http.Response) :
  let size := Z.of_nat (String.length old) in
  let ranged := Http.mkRequest url (Some ("bytes=" +:+ pretty size +:+ "-")) in
  siblings (fs w) filepath dir name pname ->
  fs w !! (dir ++ [pname]) = Some (File perm old) ->
  old <> "" ->
  url_ok E url = true ->
  server E (sent w) ranged = Some resp ->
  Http.StatusCode resp = Http.StatusPartialContent ->
  Http.BodyComplete resp = false ->
  downloadFile E url filepath w =
  (mkWorld (<[dir ++ [pname] := File perm (old +:+ Http.Body resp)]> (fs w))
           (sent w ++ [ranged]) (out w ++ [MsgResuming size]), Some CopyError).
Proof.
  intros size ranged Hs Hold Hne Hurl Hsrv Hstatus Hc.
  rewrite (downloadFile_resuming url filepath w dir name pname perm old resp)
    by assumption.
  cbv zeta. rewrite Hc. reflexivity.
Qed.

End DownloaderOutcomes.

(** The download of the demo setting. *)
Module DemoDownload.

Definition dest : string := "/home/u/Downloads/windsurf-1.5.0.tar.gz".
Definition dir : list string := ["home"; "u"; "Downloads"].
Definition name : string := "windsurf-1.5.0.tar.gz".
Definition pname : string := "windsurf-1.5.0.tar.gz.partial".

(** A server that honours range requests for the rest of the payload after
    its first four bytes; [whole] tells whether the body arrives whole. *)
Definition ranging (whole : bool) : Http.Server :=
  fun _ req =>
    match Http.Range req with
    | Some _ => Some (Http.mkResponse 206 "IVE-1.5.0" whole)
    | None => Some (Http.mkResponse 200 Demo.payload whole)
    end.

Definition partial_fs : Fs.FS := <[dir ++ [pname] := Fs.File 420 "ARCH"]> Demo.home_fs.

Lemma siblings_home (srv : Http.Server) :
  siblings (Demo.env srv) Demo.home_fs dest dir name pname.
Proof.
  split.
  - reflexivity.
  - reflexivity.
  - discriminate.
  - exists 493. reflexivity.
  - intros perm. vm_compute. discriminate.
Defined.

Lemma siblings_partial (srv : Http.Server) :
  siblings (Demo.env srv) partial_fs dest dir name pname.
Proof.
  split.
  - reflexivity.
  - reflexivity.
  - discriminate.
  - exists 493. reflexivity.
  - intros perm. vm_compute. discriminate.
Defined.

End DemoDownload.

Lemma downloadFile_frame_witness :
  fs (fst (downloadFile (Demo.env (Demo.serving Demo.payload)) (URL Demo.release)
             DemoDownload.dest (Demo.start DemoDownload.partial_fs)))
    !! ["home"; "u"] = DemoDownload.partial_fs !! ["home"; "u"].
Proof.
  apply (downloadFile_frame (Demo.env (Demo.serving Demo.payload)) (URL Demo.release)
           DemoDownload.dest (Demo.start DemoDownload.partial_fs) ["home"; "u"]).
  - vm_compute. discriminate.
  - vm_compute. discriminate.
Defined.

(** A server that refuses the archive. *)
Definition refusing : Http.Server := fun _ _ => Some (Http.mkResponse 404 "" true).

Lemma downloadFile_error_keeps_destination_witness :
  fs (fst (downloadFile (Demo.env refusing) (URL Demo.release)
             DemoDownload.dest (Demo.start Demo.home_fs)))
    !! Fs.resolve [] DemoDownload.dest
  = Demo.home_fs !! Fs.resolve [] DemoDownload.dest.
Proof.
  apply (downloadFile_error_keeps_destination (Demo.env refusing) (URL Demo.release)
           DemoDownload.dest (Demo.start Demo.home_fs) (StatusError 404)).
  - vm_compute. discriminate.
  - vm_compute. reflexivity.
Defined.

Lemma downloadFile_fresh_witness :
  downloadFile (Demo.env (Demo.serving Demo.payload)) (URL Demo.release)
    DemoDownload.dest (Demo.start Demo.home_fs) =
  (mkWorld (<[DemoDownload.dir ++ [DemoDownload.name] := Fs.File 420 Demo.payload]>
              Demo.home_fs)
           [Http.mkRequest (URL Demo.release) None] [], None).
Proof.
  apply (downloadFile_fresh (Demo.env (Demo.serving Demo.payload)) (URL Demo.release)
           DemoDownload.dest (Demo.start Demo.home_fs)
           DemoDownload.dir DemoDownload.name DemoDownload.pname
           (Http.mkResponse 200 Demo.payload true)).
  - apply DemoDownload.siblings_home.
  - vm_compute. reflexivity.
  - reflexivity.
  - reflexivity.
  - left. reflexivity.
  - reflexivity.
Defined.

Lemma downloadFile_resume_completes_witness :
  downloadFile (Demo.env (DemoDownload.ranging true)) (URL Demo.release)
    DemoDownload.dest (Demo.start DemoDownload.partial_fs) =
  (mkWorld (<[DemoDownload.dir ++ [DemoDownload.name] := Fs.File 420 Demo.payload]>
              (delete (DemoDownload.dir ++ [DemoDownload.pname]) DemoDownload.partial_fs))
           [Http.mkRequest (URL Demo.release) (Some "bytes=4-")]
           [MsgResuming 4], None).
Proof.
  apply (downloadFile_resume_completes (Demo.env (DemoDownload.ranging true))
           (URL Demo.release) DemoDownload.dest (Demo.start DemoDownload.partial_fs)
           DemoDownload.dir DemoDownload.name DemoDownload.pname 420 Demo.payload 4%nat
           (Http.mkResponse 206 "IVE-1.5.0" true)).
  - apply DemoDownload.siblings_partial.
  - simpl. lia.
  - vm_compute. reflexivity.
  - reflexivity.
  - reflexivity.
  - reflexivity.
  - reflexivity.
  - reflexivity.
Defined.

Lemma downloadFile_interrupted_witness :
  downloadFile (Demo.env (DemoDownload.ranging false)) (URL Demo.release)
    DemoDownload.dest (Demo.start DemoDownload.partial_fs) =
  (mkWorld (<[DemoDownload.dir ++ [DemoDownload.pname] := Fs.File 420 "ARCHIVE-1.5.0"]>
              DemoDownload.partial_fs)
           [Http.mkRequest (URL Demo.release) (Some "bytes=4-")]
           [MsgResuming 4], Some CopyError).
Proof.
  apply (downloadFile_interrupted (Demo.env (DemoDownload.ranging false))
           (URL Demo.release) DemoDownload.dest (Demo.start DemoDownload.partial_fs)
           DemoDownload.dir DemoDownload.name DemoDownload.pname 420 "ARCH"
           (Http.mkResponse 206 "IVE-1.5.0" false)).
  - apply DemoDownload.siblings_partial.
  - vm_compute. reflexivity.
  - discriminate.
  - reflexivity.
  - reflexivity.
  - reflexivity.
  - reflexivity.
Defined.

(** ** [getLatestRelease] and [calculateSHA256] *)

Section ResolverExtras.
Variable E : Env.
Import Fs.

(** X10. [getLatestRelease] sends exactly one request, a plain GET of the
    update API URL of the platform, and touches nothing else; it returns a
    release exactly when the answer has status 200 and a body that decodes
    to that release. *)
Theorem getLatestRelease_outcome (platform : string) (w : World) :
  fst (getLatestRelease E platform w)
  = mkWorld (fs w) (sent w ++ [releaseRequest platform]) (out w)
  /\ forall release,
       snd (getLatestRelease E platform w) = inr release
       <-> resolves E w platform release.
Proof.
  unfold getLatestRelease, Do, resolves. fold (releaseRequest platform).
  destruct (server E (sent w) (releaseRequest platform)) as [resp|].
  - destruct (Z.eqb_spec (Http.StatusCode resp) Http.StatusOK) as [Hok|Hbad]; cbn [negb].
    + destruct (decodeRelease E (Http.Body resp)) as [r|] eqn:Hdec.
      * split; [reflexivity|]. intros release. cbn [snd]. split.
        -- intros [= <-]. exists resp. auto.
        -- intros (resp' & [= <-] & _ & Hd). congruence.
      * split; [reflexivity|]. intros release. cbn [snd]. split; [discriminate|].
        intros (resp' & [= <-] & _ & Hd). congruence.
    + split; [reflexivity|]. intros release. cbn [snd]. split; [discriminate|].
      intros (resp' & [= <-] & Hs & _). contradiction.
  - split; [reflexivity|]. intros release. cbn [snd]. split; [discriminate|].
    intros (resp' & Hs & _). discriminate.
Qed.

(** X11. [calculateSHA256] reads the file in chunks of 1 MiB until end of
    file, and what it returns for a regular file of any length is the hex
    SHA-256 digest of its whole content; a missing path and a directory are
    errors. *)
Theorem calculateSHA256_outcome (path : string) (w : World) :
  calculateSHA256 E path w =
  match Stat (cwd E) (fs w) path with
  | inl e => inl (HashOpenError e)
  | inr (Dir _) => inl (HashReadError EISDIR)
  | inr (File _ data) => inr (Sha256.Sum256Hex data)
  end.
Proof.
  destruct (Stat (cwd E) (fs w) path) as [e|[perm|perm data]] eqn:Hstat.
  - unfold calculateSHA256. now rewrite Hstat.
  - unfold calculateSHA256. now rewrite Hstat.
  - exact (calculateSHA256_file E path w perm data Hstat).
Qed.

End ResolverExtras.

(** The model of SHA-256 against the test vectors of the standard. *)
Example Sum256Hex_vectors :
  Sha256.Sum256Hex "" = "e3b0c44298fc1c149afbf4c8996fb92427ae41e4649b934ca495991b7852b855"
  /\ Sha256.Sum256Hex "abc"
     = "ba7816bf8f01cfea414140de5dae2223b00361a396177a9cb410ff61f20015ad"
  /\ Sha256.Sum256Hex "abcdbcdecdefdefgefghfghighijhijkijkljklmklmnlmnomnopnopq"
     = "248d6a61d20638b8e5c026930c3e6039a33ce45964ff2167f6ecedd419db06c1".
Proof. repeat split; vm_compute; reflexivity. Qed.

(** ** [extractArchive] *)

Section InstallerExtras.
Variable E : Env.
Import Fs.

(** X12. The extraction handles the entries in order, each on the file
    system the one before it left; the first error ends it, and the
    entries after it are not looked at. *)
Theorem extractLoop_app (destPath : string) (pre post : list Tar.Entry)
    (fin : Tar.StreamEnd) (f : FS) :
  extractLoop E destPath (pre ++ post) fin f =
  match extractLoop E destPath pre Tar.EOF f with
  | (f1, None) => extractLoop E destPath post fin f1
  | (f1, Some err) => (f1, Some err)
  end.
Proof.
  revert f. induction pre as [|e pre IH]; intros f; [reflexivity|].
  simpl. destruct (extractEntry E destPath e f) as [f' [err|]]; [reflexivity|].
  apply IH.
Qed.


End InstallerExtras.


Section DirectoryEntries.
Variable E : Env.
Import Fs.

Lemma node_at_snoc (f : FS) (l : list string) (x : string) :
  node_at f (l ++ [x]) = f !! (l ++ [x]).
Proof. unfold node_at. apply match_snoc. Qed.

Lemma mkdirAll_keeps (perm : Z) (seen rest : list string) (f f' : FS)
    (k : list string) (n : Node) :
  mkdirAll (umask E) perm seen rest f = inr f' ->
  f !! k = Some n -> f' !! k = Some n.
Proof.
  revert seen f. induction rest as [|c rest IH]; intros seen f Hm Hk.
  - simpl in Hm. now injection Hm as <-.
  - simpl in Hm. rewrite node_at_snoc in Hm.
    destruct (f !! (seen ++ [c])) as [[q|q d]|] eqn:Hp; [eauto|discriminate|].
    apply (IH _ _ Hm). rewrite lookup_insert_ne; [exact Hk|]. congruence.
Qed.

Lemma node_at_keeps (perm : Z) (seen rest p : list string) (f f' : FS) (q : Z) :
  mkdirAll (umask E) perm seen rest f = inr f' ->
  node_at f p = Some (Dir q) -> exists q', node_at f' p = Some (Dir q').
Proof.
  intros Hm Hn. destruct p as [|x p]; [eexists; reflexivity|].
  exists q. simpl in *. eapply mkdirAll_keeps; eauto.
Qed.

Lemma mkdirAll_made (perm : Z) (seen rest : list string) (f f' : FS) (q : Z) :
  node_at f seen = Some (Dir q) ->
  mkdirAll (umask E) perm seen rest f = inr f' ->
  exists q', walk f' seen rest = inr (Dir q').
Proof.
  revert seen f q. induction rest as [|c rest IH]; intros seen f q Hn Hm.
  - simpl in Hm. injection Hm as <-. simpl. rewrite Hn. eauto.
  - pose proof (node_at_keeps _ _ _ seen _ _ q Hm Hn) as [q' Hn'].
    simpl. rewrite Hn'.
    simpl in Hm. rewrite node_at_snoc in Hm.
    destruct (f !! (seen ++ [c])) as [[d|d dat]|] eqn:Hp; [|discriminate|].
    + apply (IH (seen ++ [c]) f d); [|exact Hm].
      now rewrite node_at_snoc.
    + eapply IH; [|exact Hm].
      rewrite node_at_snoc. apply lookup_insert_eq.
Qed.

(** X14. When a directory entry has been extracted without error, its
    target is a directory and every element of the path leading to it is
    one; no node that was there before has been changed or removed. *)
Theorem materialize_directory_made (target : string) (e : Tar.Entry) (f f' : FS) :
  Tar.Typeflag (Tar.Hdr e) = Tar.TypeDir ->
  materialize E target e f = (f', None) ->
  (exists perm, lookup_path f' (resolve (cwd E) target) = inr (Dir perm))
  /\ forall p n, f !! p = Some n -> f' !! p = Some n.
Proof.
  intros Ht. unfold materialize. rewrite Ht. simpl Ascii.eqb. cbv iota.
  destruct (MkdirAll _ _ _ _ _) as [err|f1] eqn:Hmk; [discriminate|].
  intros [= <-]. unfold MkdirAll in Hmk.
  destruct (String.eqb target ""); [discriminate|].
  split.
  - apply (mkdirAll_made 493 [] _ f f1 493); [reflexivity|exact Hmk].
  - intros p n Hp. eapply mkdirAll_keeps; eauto.
Qed.

End DirectoryEntries.

Lemma materialize_directory_made_witness :
  (exists perm,
      Fs.lookup_path
        (<[["install"; "a"; "b"] := Fs.Dir 493]>
           (<[["install"; "a"] := Fs.Dir 493]> Demo.install_fs))
        (Fs.resolve [] "/install/a/b") = inr (Fs.Dir perm))
  /\ forall p n, Demo.install_fs !! p = Some n ->
       (<[["install"; "a"; "b"] := Fs.Dir 493]>
          (<[["install"; "a"] := Fs.Dir 493]> Demo.install_fs)) !! p = Some n.
Proof.
  apply (materialize_directory_made (Demo.env (Demo.serving Demo.payload))
           "/install/a/b"
           (Tar.mkEntry (Tar.mkHeader "Windsurf/a/b/" Tar.TypeDir 493) "" true)
           Demo.install_fs).
  - reflexivity.
  - reflexivity.
Defined.

Section GuardExtras.
Variable E : Env.
Import GoStrings Filepath.

(** A [..] at the bottom of the output of [Clean] stays there. *)
Lemma cleanLoop_bottom (elems acc : list string) :
  exists acc', cleanLoop false elems (acc ++ [".."]) = acc' ++ [".."].
Proof.
  revert acc. induction elems as [|e elems IH]; intros acc; [eauto|].
  simpl. destruct (String.eqb e "" || String.eqb e "."); [apply IH|].
  destruct (String.eqb e "..") eqn:He.
  - destruct acc as [|a acc]; simpl.
    + apply (IH [e]).
    + destruct (String.eqb a ".."); [apply (IH (e :: a :: acc))|apply IH].
  - apply (IH (e :: acc)).
Qed.

Lemma Join_dotdot_first (l : list string) :
  let s := GoStrings.Join (".." :: l) "/" in
  String.eqb s ".." || HasPrefix s "../" = true.
Proof. destruct l; reflexivity. Qed.

Lemma Clean_parent (name : string) (rest : list string) :
  Split name "/" = ".." :: rest -> IsAbs name = false -> String.eqb name "" = false ->
  exists l, Clean name = GoStrings.Join (".." :: l) "/".
Proof.
  intros Hsplit Habs Hne. unfold Clean, clean_elems. rewrite Hne, Habs, Hsplit.
  change (cleanLoop false (".." :: rest) []) with (cleanLoop false rest [".."]).
  destruct (cleanLoop_bottom rest []) as [acc' Hb].
  change ([] ++ [".."]) with [".."] in Hb. rewrite Hb, rev_app_distr.
  exists (rev acc'). reflexivity.
Qed.

Lemma IsLocal_parent (name : string) :
  name = ".." \/ HasPrefix name "../" = true -> IsLocal name = false.
Proof.
  intros H.
  assert (Hs : exists rest, Split name "/" = ".." :: rest /\ IsAbs name = false
                            /\ String.eqb name "" = false).
  { destruct H as [->|H]; [exists []; auto|].
    apply HasPrefix_spec in H. rewrite H.
    exists (Split (drop_bytes 3 name) "/"). repeat split. }
  destruct Hs as (rest & Hsplit & Habs & Hne).
  destruct (Clean_parent name rest Hsplit Habs Hne) as [l Hclean].
  unfold IsLocal. rewrite Habs, Hne, Hsplit, Hclean. cbn [orb].
  change (existsb (fun part => String.eqb part "." || String.eqb part "..") (".." :: rest))
    with true. cbv iota.
  pose proof (Join_dotdot_first l) as Hj. cbv zeta in Hj.
  now rewrite Hj.
Qed.

(** X15. An entry whose name is absolute, is [..], or begins with [../]
    stops the extraction with the non-local-path error, and the file
    system is as it was before the entry. *)
Theorem extractEntry_rejects_escape (destPath : string) (e : Tar.Entry) (f : Fs.FS) :
  let name := Tar.Name (Tar.Hdr e) in
  HasPrefix name "/" = true \/ name = ".." \/ HasPrefix name "../" = true ->
  extractEntry E destPath e f = (f, Some (NonLocalPath name)).
Proof.
  intros name H. apply extractEntry_rejects_nonlocal.
  destruct H as [H|H]; [now apply IsLocal_absolute|now apply IsLocal_parent].
Qed.

End GuardExtras.

Lemma extractEntry_rejects_escape_witness :
  extractEntry (Demo.env (Demo.serving Demo.payload)) "/install"
    (Tar.mkEntry (Tar.mkHeader "../../etc/passwd" Tar.TypeReg 420) "x" true)
    Demo.install_fs =
  (Demo.install_fs, Some (NonLocalPath "../../etc/passwd")).
Proof.
  apply (extractEntry_rejects_escape (Demo.env (Demo.serving Demo.payload)) "/install"
           (Tar.mkEntry (Tar.mkHeader "../../etc/passwd" Tar.TypeReg 420) "x" true)).
  right. right. reflexivity.
Defined.

(** ** The version marker and the replacement, in [main] *)

Section MarkerExtras.
Variable E : Env.
Import Fs.

Lemma lookup_path_parent (f : FS) (q : list string) (x : string) (n : Node) :
  lookup_path f (q ++ [x]) = inr n -> exists perm, lookup_path f q = inr (Dir perm).
Proof.
  rewrite lookup_path_snoc.
  destruct (lookup_path f q) as [e|[perm|perm d]]; try discriminate. eauto.
Qed.

Lemma lookup_path_insert_self (f : FS) (q : list string) (x : string) (n : Node) (perm : Z) :
  lookup_path f q = inr (Dir perm) ->
  lookup_path (<[q ++ [x] := n]> f) (q ++ [x]) = inr n.
Proof.
  intros Hq. rewrite lookup_path_snoc.
  rewrite lookup_path_insert_other by apply prefix_snoc_not.
  now rewrite Hq, lookup_insert_eq.
Qed.

(** Creating (or truncating) a file and writing to it, as [os.Create] and
    [WriteString] do: the file then reads back as what was written. *)
Lemma create_write_read (path bytes : string) (f f1 : FS) :
  open_write (cwd E) (umask E) true true path 438 f = inr f1 ->
  ReadFile (cwd E) (write_append (cwd E) path bytes f1) path = inr bytes.
Proof.
  unfold open_write, ReadFile, Stat, write_append.
  destruct (String.eqb path "") eqn:Hne; [discriminate|].
  destruct (lookup_path f (resolve (cwd E) path)) as [[]|[q|q d]] eqn:Hl; try discriminate.
  - destruct (resolve (cwd E) path) as [|x0 l0] eqn:Hr; [discriminate|].
    assert (Hnil : x0 :: l0 <> []) by discriminate.
    destruct (exists_last Hnil) as (dir & base & Hsnoc). rewrite Hsnoc in *.
    rewrite parent_snoc.
    destruct (lookup_path f dir) as [e|[perm|perm d]] eqn:Hdir; try discriminate.
    intros [= <-]. rewrite lookup_insert_eq, insert_insert_eq.
    now rewrite (lookup_path_insert_self f dir base _ perm Hdir).
  - destruct (resolve (cwd E) path) as [|x0 l0] eqn:Hr; [discriminate|].
    assert (Hnil : x0 :: l0 <> []) by discriminate.
    destruct (exists_last Hnil) as (dir & base & Hsnoc). rewrite Hsnoc in *.
    destruct (lookup_path_parent f dir base _ Hl) as [perm Hdir].
    intros [= <-]. rewrite lookup_insert_eq, insert_insert_eq.
    now rewrite (lookup_path_insert_self f dir base _ perm Hdir).
Qed.

(** X16. The version marker round trip: once [main] has written the marker
    (the create did not fail), the marker reads back as the version of the
    release, and the version check of a later run that resolves the same
    version ends that run as up to date, with status 0. *)
Theorem marker_round_trip
    (installPath versionMarker : string) (release : ReleaseInfo) (w : World)
    (f1 : FS) (node : Node) :
  let version := WindsurfVersion release in
  let w' := fst (writeMarker E versionMarker release w) in
  open_write (cwd E) (umask E) true true versionMarker 438 (fs w) = inr f1 ->
  Stat (cwd E) (fs w') installPath = inr node ->
  GoStrings.TrimSpace version = version ->
  ReadFile (cwd E) (fs w') versionMarker = inr version
  /\ forall w2, fs w2 = fs w' ->
       checkLocalVersion E installPath versionMarker version false w2
       = (print (MsgAlreadyAt version) w2, inl 0).
Proof.
  intros version w' Hopen Hstat Htrim.
  assert (Hread : ReadFile (cwd E) (fs w') versionMarker = inr version).
  { subst w'. unfold writeMarker. rewrite Hopen. cbn [fst ret set_fs fs].
    now apply create_write_read with (f := fs w). }
  split; [exact Hread|].
  intros w2 Hfs. unfold checkLocalVersion. rewrite Hfs, Hstat, Hread.
  cbn [IsNotExist negb andb]. rewrite Htrim.
  rewrite (proj2 (compareVersions_sign version version)). reflexivity.
Qed.

(** What the replacement does once the user has agreed. *)
Lemma replaceStage_consented (installPath : string) (yes : bool) (response : string)
    (w : World) (node : Node) (f : FS) :
  Stat (cwd E) (fs w) installPath = inr node ->
  yes = true \/ declined response = false ->
  RemoveAll (cwd E) installPath (fs w) = inr f ->
  exists w6,
    replaceStage E installPath yes response w = (w6, inr tt)
    /\ sent w6 = sent w
    /\ (exists msg, out w6 = out w ++ [msg])
    /\ forall p, resolve (cwd E) installPath `prefix_of` p ->
         p <> resolve (cwd E) installPath -> fs w6 !! p = None.
Proof.
  intros Hstat Hconsent Hrm.
  pose proof (RemoveAll_existing E installPath (fs w) f node Hstat Hrm) as Hf.
  assert (Hbelow : forall f',
            (f' = f \/ MkdirAll (cwd E) (umask E) installPath 493 f = inr f') ->
            forall p, resolve (cwd E) installPath `prefix_of` p ->
              p <> resolve (cwd E) installPath -> f' !! p = None).
  { intros f' [->|Hmk] p Hp Hne.
    - rewrite Hf. now apply remove_tree_below.
    - unfold MkdirAll in Hmk. destruct (String.eqb installPath ""); [discriminate|].
      rewrite (mkdirAll_other E _ _ _ _ _ p Hmk).
      + rewrite Hf. now apply remove_tree_below.
      + simpl. intros Hq. apply Hne. symmetry.
        apply prefix_length_eq; [exact Hp|]. now apply prefix_length. }
  unfold replaceStage, bind. rewrite Hstat. cbn [IsNotExist negb].
  destruct yes.
  - unfold Printf, ret. cbn [print fs sent out]. rewrite Hrm. cbn [set_fs fs sent out].
    destruct (MkdirAll (cwd E) (umask E) installPath 493 f) as [e|f0] eqn:Hmk.
    + eexists. split; [reflexivity|]. cbn [fs sent out]. repeat split; eauto.
    + eexists. split; [reflexivity|]. cbn [fs sent out]. repeat split; eauto.
  - destruct Hconsent as [|Hd]; [discriminate|]. rewrite Hd.
    unfold Printf, ret. cbn [print fs sent out]. rewrite Hrm. cbn [set_fs fs sent out].
    destruct (MkdirAll (cwd E) (umask E) installPath 493 f) as [e|f0] eqn:Hmk.
    + eexists. split; [reflexivity|]. cbn [fs sent out]. repeat split; eauto.
    + eexists. split; [reflexivity|]. cbn [fs sent out]. repeat split; eauto.
Qed.

(** X17. On a platform whose token does not begin with [linux-], a run that
    gets past the verification still removes an existing installation root
    (once the user has agreed) before it stops short of extracting: it
    ends with status 0 and the hint to install by hand, and nothing is left
    below the installation root. *)
Theorem main_manual_install_removes_root
    (inv : Invocation) (w w5 : World) (home platform : string)
    (release : ReleaseInfo) (archivePath : string) (node : Node) (f : FS) :
  let installPath := installPathOf inv home in
  homeDir inv = Some home ->
  selectPlatform inv = Some platform ->
  GoStrings.HasPrefix platform "linux-" = false ->
  planStages E inv home platform w = (w5, inr (release, archivePath)) ->
  Stat (cwd E) (fs w5) installPath = inr node ->
  yes inv = true \/ declined (response inv) = false ->
  RemoveAll (cwd E) installPath (fs w5) = inr f ->
  exists w6,
    main E inv w = (print (MsgManualInstall archivePath) w6, 0)
    /\ forall p, resolve (cwd E) installPath `prefix_of` p ->
         p <> resolve (cwd E) installPath -> fs w6 !! p = None.
Proof.
  intros installPath Hhome Hplat Hlinux Hplan Hstat Hconsent Hrm.
  destruct (replaceStage_consented installPath (yes inv) (response inv) w5 node f
              Hstat Hconsent Hrm) as (w6 & Hrep & _ & _ & Hbelow).
  exists w6. split; [|exact Hbelow].
  unfold main.
  rewrite (mainBody_planned E inv w w5 home platform release archivePath Hhome Hplat Hplan).
  unfold installStages. fold installPath.
  rewrite (bind_continue _ _ _ _ _ Hrep).
  unfold installStage. rewrite Hlinux. reflexivity.
Qed.

End MarkerExtras.

Lemma marker_round_trip_witness :
  Fs.ReadFile [] (fs (fst (writeMarker (Demo.env (Demo.serving Demo.payload))
                             "/home/u/apps/windsurf/.windsurf-release" Demo.release
                             (Demo.start installed_fs))))
    "/home/u/apps/windsurf/.windsurf-release" = inr "1.5.0".
Proof.
  refine (proj1 (marker_round_trip (Demo.env (Demo.serving Demo.payload))
                   "/home/u/apps/windsurf" "/home/u/apps/windsurf/.windsurf-release"
                   Demo.release (Demo.start installed_fs)
                   (<[["home"; "u"; "apps"; "windsurf"; ".windsurf-release"]
                        := Fs.File 420 ""]> installed_fs)
                   (Fs.Dir 493) _ _ _)).
  - reflexivity.
  - reflexivity.
  - reflexivity.
Defined.

(** The demo run for a macOS archive, over an existing installation. *)
Definition mac_invocation : Invocation :=
  mkInvocation (Some "/home/u") "linux" "amd64" None None "darwin-arm64" true true "".

Definition mac_verified : World :=
  mkWorld reinstall_fs [releaseRequest "darwin-arm64-dmg"]
    [MsgSelectedPlatform "darwin-arm64-dmg"; MsgFoundVersion "1.5.0"; MsgDownloadSkipped;
     MsgCheckingIntegrity "/home/u/Downloads/windsurf-1.5.0.tar.gz"; MsgOK].

Lemma main_manual_install_removes_root_witness :
  exists w6,
    main (Demo.env (Demo.serving Demo.payload)) mac_invocation (Demo.start reinstall_fs)
    = (print (MsgManualInstall "/home/u/Downloads/windsurf-1.5.0.tar.gz") w6, 0)
    /\ forall p, ["home"; "u"; "apps"; "windsurf"] `prefix_of` p ->
         p <> ["home"; "u"; "apps"; "windsurf"] -> fs w6 !! p = None.
Proof.
  assert (Hplat : selectPlatform mac_invocation = Some "darwin-arm64-dmg")
    by (vm_compute; reflexivity).
  assert (Hplan : planStages (Demo.env (Demo.serving Demo.payload)) mac_invocation
                    "/home/u" "darwin-arm64-dmg" (Demo.start reinstall_fs) =
                  (mac_verified,
                   inr (Demo.release, "/home/u/Downloads/windsurf-1.5.0.tar.gz")))
    by (vm_compute; reflexivity).
  assert (Hstat : Fs.Stat (cwd (Demo.env (Demo.serving Demo.payload))) (fs mac_verified)
                    "/home/u/apps/windsurf" = inr (Fs.Dir 493))
    by (vm_compute; reflexivity).
  pose proof (main_manual_install_removes_root (Demo.env (Demo.serving Demo.payload))
                mac_invocation (Demo.start reinstall_fs) mac_verified
                "/home/u" "darwin-arm64-dmg" Demo.release
                "/home/u/Downloads/windsurf-1.5.0.tar.gz" (Fs.Dir 493)
                (Fs.remove_tree ["home"; "u"; "apps"; "windsurf"] reinstall_fs)) as H.
  cbv zeta in H.
  specialize (H eq_refl).
  specialize (H Hplat).
  specialize (H eq_refl).
  specialize (H Hplan).
  specialize (H Hstat).
  specialize (H (or_introl eq_refl)).
  specialize (H eq_refl).
  exact H.
Defined.

(** ** What exit status 0 means *)

Section ExitStatus.
Variable E : Env.
Import Fs.




















End ExitStatus.

